(** * The HTTP jobs of db1000n ([src/job/http.go])

    A shallow embedding of [singleRequestJob], [headerLoaderFunc],
    [cookieLoaderFunc], [fastHTTPJob], [getHTTPJobConfigs] and
    [sendFastHTTPRequest], together with the properties of the job loop and
    of the single-shot variant.

    The packages the file imports (templates, utils, metrics, core/http,
    fasthttp, uuid, time) are collaborators: their operations are the
    fields of the class [Collaborators], and every property below holds for
    every instance of it.  Each call that the jobs make to a collaborator
    and that the properties talk about is recorded, with its result, as an
    [event]; a run returns its result, the final state and the events it
    emitted, oldest first.

    Left out, because no property below depends on them: the release of
    the pooled request, response and cookie objects and the [cancel] of
    the derived context, all deferred to the return of the function, and
    the two goroutines [monitor.Update(ctx, time.Second)] that flush the
    traffic writers in the background. *)

From stdpp Require Import gmap strings list fin_maps.
From Stdlib Require Import ZArith Lia.

(** ** Plain data *)

(** A Go [error]: either a leaf error or [fmt.Errorf("<prefix>: %w", cause)]. *)
Inductive error : Type :=
| errors_New (msg : string)
| fmt_Errorf_w (prefix : string) (cause : error).

(** [errors.Unwrap]. *)
Definition Unwrap (e : error) : option error :=
  match e with
  | errors_New _ => None
  | fmt_Errorf_w _ cause => Some cause
  end.

(** The two traffic streams of the metrics package. *)
Inductive Metric : Type := Traffic | ProcessedTraffic.

(** The outcome label of the per-exchange counter. *)
Inductive Status : Type := StatusFail | StatusSuccess.

#[global] Instance Metric_eq_dec : EqDecision Metric.
Proof. solve_decision. Defined.

#[global] Instance Status_eq_dec : EqDecision Status.
Proof. solve_decision. Defined.

Definition Metric_code (m : Metric) : nat :=
  match m with Traffic => 0 | ProcessedTraffic => 1 end.
Definition Metric_of_code (n : nat) : Metric :=
  match n with 0 => Traffic | _ => ProcessedTraffic end.
Definition Status_code (st : Status) : nat :=
  match st with StatusFail => 0 | StatusSuccess => 1 end.
Definition Status_of_code (n : nat) : Status :=
  match n with 0 => StatusFail | _ => StatusSuccess end.

Lemma Metric_of_code_code m : Metric_of_code (Metric_code m) = m.
Proof. by destruct m. Qed.

Lemma Status_of_code_code st : Status_of_code (Status_code st) = st.
Proof. by destruct st. Qed.

#[global] Instance Metric_countable : Countable Metric :=
  inj_countable' Metric_code Metric_of_code Metric_of_code_code.

#[global] Instance Status_countable : Countable Status :=
  inj_countable' Status_code Status_of_code Status_of_code_code.

(** The conversion [uint64(n)] of a Go [int]. *)
Definition uint64 (n : Z) : Z := (n mod 2 ^ 64)%Z.

(** [context.Context], as far as the jobs read it: the value stored under
    the encrypted-context key.  Cancellation is part of the world. *)
Record Context : Type := { encrypted_value : bool }.

(** Modelled from the spec: [isInEncryptedContext] is declared outside
    http.go; the execution-mode signal is "a boolean derived from the
    ambient context indicating whether the process is running under a
    privileged/obfuscated configuration-delivery mode". *)
Definition isInEncryptedContext (ctx : Context) : bool := encrypted_value ctx.

(** [context.WithCancel] keeps the values of its parent. *)
Definition context_WithCancel (ctx : Context) : Context := ctx.

(** [httpJobConfig]: the embedded [BasicJobConfig] and the two raw maps. *)
Record httpJobConfig {BasicJobConfig Value : Type} : Type := {
  Basic : BasicJobConfig;
  Request : gmap string Value;
  Client : gmap string Value;
}.
Arguments httpJobConfig : clear implicits.

(** Modelled from the spec: the metrics package is outside http.go.  The
    sink "accepts named counter increments; identity scheme is (streamKind,
    instanceID)" and "exposes a separate per-exchange outcome counter keyed
    by (host, method, success|fail)"; a writer's [Add] is an "increment of
    the in-memory accumulator for a named stream".  The background flush of
    a writer ([go monitor.Update(ctx, time.Second)]) moves bytes from the
    accumulator to the sink and leaves the total of the stream alone, so the
    total is kept in one place. *)
Record Metrics : Type := {
  streams : gmap (Metric * string) Z;
  http_counters : gmap (string * string * Status) nat;
}.

Definition stream_total (m : Metric) (id : string) (ms : Metrics) : Z :=
  default 0%Z (streams ms !! (m, id)).

Definition http_count (host method : string) (st : Status) (ms : Metrics) : nat :=
  default 0 (http_counters ms !! (host, method, st)).

Definition add_stream (m : Metric) (id : string) (n : Z) (ms : Metrics) : Metrics :=
  {| streams := <[(m, id) := (stream_total m id ms + n)%Z]> (streams ms);
     http_counters := http_counters ms |}.

Definition inc_http (host method : string) (st : Status) (ms : Metrics) : Metrics :=
  {| streams := streams ms;
     http_counters := <[(host, method, st) := S (http_count host method st ms)]> (http_counters ms) |}.

(** ** The collaborators *)

Class Collaborators : Type := {
  (** the state of everything outside the job: network, clock, random
      source of the templates and of uuid, throttle and cancellation *)
  World : Type;
  (** [interface{}] values of raw configuration *)
  Value : Type;
  (** [config.Args], [GlobalConfig], [BasicJobConfig] *)
  Args : Type;
  GlobalConfig : Type;
  BasicJobConfig : Type;
  BackoffConfig : Type;
  BackoffController : Type;
  (** [templates.MapStruct], [http.RequestConfig], [http.ClientConfig],
      [http.Client] *)
  MapStruct : Type;
  RequestConfig : Type;
  ClientConfig : Type;
  HTTPClient : Type;
  (** [fasthttp.Request], [fasthttp.Response], [fasthttp.Cookie] *)
  FastRequest : Type;
  FastResponse : Type;
  Cookie : Type;

  (** package job *)
  ParseConfig : Args → GlobalConfig → error + httpJobConfig BasicJobConfig Value;
  BasicJobConfig_Next : BasicJobConfig → Context → World → bool * World;
  BasicJobConfig_BackoffConfig : BasicJobConfig → option BackoffConfig;
  GlobalConfig_ProxyURLs : GlobalConfig → string;
  GlobalConfig_Backoff : GlobalConfig → BackoffConfig;

  (** package templates *)
  templates_ParseAndExecuteMapStruct : gmap string Value → Context → World → Value * World;
  templates_ParseAndExecute : string → Context → World → string * World;
  templates_ParseMapStruct : gmap string Value → error + MapStruct;
  MapStruct_Execute : MapStruct → Context → World → Value * World;

  (** package utils *)
  utils_Decode_ClientConfig : Value → error + ClientConfig;
  utils_Decode_RequestConfig : Value → error + RequestConfig;
  utils_Sleep : Context → Z → World → World;
  utils_NonNilBackoffConfigOrDefault : option BackoffConfig → BackoffConfig → BackoffConfig;
  utils_NewBackoffController : BackoffConfig → BackoffController;
  BackoffController_Increment : BackoffController → BackoffController;
  BackoffController_Reset : BackoffController → BackoffController;
  BackoffController_GetTimeout : BackoffController → Z;

  (** package core/http *)
  ClientConfig_set_ProxyURLs : ClientConfig → string → ClientConfig;
  http_NewClient : Context → ClientConfig → HTTPClient;
  (** [Do(req, resp)]: the error and the response sink as the call leaves
      it ([None] for a nil sink); the client reads the request and leaves
      its host and method as [InitRequest] set them *)
  HTTPClient_Do : HTTPClient → FastRequest → option FastResponse → World →
                  (option error * option FastResponse) * World;
  http_InitRequest : RequestConfig → FastRequest → Z * FastRequest;
  RequestConfig_Path : RequestConfig → string;

  (** package fasthttp *)
  fasthttp_AcquireRequest : FastRequest;
  fasthttp_AcquireResponse : FastResponse;
  Request_Host : FastRequest → string;
  Request_Method : FastRequest → string;
  Response_Body : FastResponse → string;
  Response_StatusCode : FastResponse → Z;
  (** the (key, value) pairs that [Header.VisitAll] and
      [Header.VisitAllCookie] pass to their callback, in order *)
  Response_VisitAll : FastResponse → list (string * string);
  Response_VisitAllCookie : FastResponse → list (string * string);
  Cookie_ParseBytes : string → error + Cookie;
  Cookie_Expire : Cookie → Z;
  Cookie_Value : Cookie → string;
  fasthttp_CookieExpireUnlimited : Z;

  (** packages time and uuid *)
  time_Now : World → Z * World;
  uuid_New : World → string * World;
}.

Section Job.
Context {C : Collaborators}.

(** ** Events *)

(** The argument of the one [%v] verb of a [log.Printf] line. *)
Inductive printf_arg : Type :=
| PValue (v : option Value)
| PString (s : string).

(** The zap fields that the jobs attach to a log record. *)
Inductive zap_Field : Type :=
| zap_Error (err : error)
| zap_Any (key : string) (v : Args)
| zap_ByteString (key : string) (v : string).

Inductive event : Type :=
| EvPrintf (format : string) (arg : printf_arg)
| EvDebug (msg : string) (fields : list zap_Field)
| EvNext (ok : bool)
| EvExecute (raw : Value)
| EvInitRequest (cfg : RequestConfig) (dataSize : Z)
| EvUUID (id : string)
| EvRecord (m : Metric) (id : string) (n : Z)
| EvDo (req : FastRequest) (err : option error) (resp : option FastResponse)
| EvIncHTTP (host method : string) (st : Status)
| EvSleep (d : Z)
| EvNow (t : Z).

(** ** The monad of a job: state passing and an event log *)

Record state : Type := { world : World; sink : Metrics }.

Definition M (A : Type) : Type := state → A * state * list event.

Definition ret {A} (a : A) : M A := λ s, (a, s, []).

Definition bind {A B} (m : M A) (k : A → M B) : M B :=
  λ s, let '(a, s1, e1) := m s in
       let '(b, s2, e2) := k a s1 in
       (b, s2, e1 ++ e2).

Notation "'let*' x := c 'in' k" := (bind c (λ x, k))
  (at level 10, x binder, c at level 200, k at level 200).
Notation "c ;;; k" := (bind c (λ _, k))
  (at level 63, right associativity).

(** An effect on the world only, recorded as [ev]. *)
Definition on_world {A} (f : World → A * World) (ev : A → list event) : M A :=
  λ s, let '(a, w) := f (world s) in
       (a, {| world := w; sink := sink s |}, ev a).

Definition on_sink (f : Metrics → Metrics) (ev : list event) : M unit :=
  λ s, (tt, {| world := world s; sink := f (sink s) |}, ev).

Definition emit (ev : event) : M unit := λ s, (tt, s, [ev]).

(** The calls of the jobs. *)
Definition log_Printf (format : string) (arg : printf_arg) : M unit :=
  emit (EvPrintf format arg).

Definition logger_Debug (msg : string) (fields : list zap_Field) : M unit :=
  emit (EvDebug msg fields).

Definition jobConfig_Next (basic : BasicJobConfig) (ctx : Context) : M bool :=
  on_world (BasicJobConfig_Next basic ctx) (λ ok, [EvNext ok]).

Definition requestTpl_Execute (tpl : MapStruct) (ctx : Context) : M Value :=
  on_world (MapStruct_Execute tpl ctx) (λ raw, [EvExecute raw]).

Definition InitRequest (cfg : RequestConfig) (req : FastRequest) : M (Z * FastRequest) :=
  λ s, (http_InitRequest cfg req, s, [EvInitRequest cfg (http_InitRequest cfg req).1]).

Definition uuid_New_String : M string :=
  on_world uuid_New (λ id, [EvUUID id]).

Definition clock_Now : M Z :=
  on_world time_Now (λ t, [EvNow t]).

Definition Sleep (ctx : Context) (d : Z) : M unit :=
  on_world (λ w, (tt, utils_Sleep ctx d w)) (λ _, [EvSleep d]).

Definition client_Do (client : HTTPClient) (req : FastRequest) (resp : option FastResponse)
  : M (option error * option FastResponse) :=
  on_world (HTTPClient_Do client req resp) (λ r, [EvDo req r.1 r.2]).

(** [metrics.Default.Write(name, id, value)]. *)
Definition metrics_Write (m : Metric) (id : string) (n : Z) : M unit :=
  on_sink (add_stream m id n) [EvRecord m id n].

(** [metrics.IncHTTP(host, method, status)]. *)
Definition metrics_IncHTTP (host method : string) (st : Status) : M unit :=
  on_sink (inc_http host method st) [EvIncHTTP host method st].

(** [metrics.Default.NewWriter(name, id)] and the [Add] of the writer. *)
Record Writer : Type := { writer_name : Metric; writer_id : string }.

Definition metrics_NewWriter (m : Metric) (id : string) : Writer :=
  {| writer_name := m; writer_id := id |}.

Definition Writer_Add (w : Writer) (n : Z) : M unit :=
  on_sink (add_stream (writer_name w) (writer_id w) n)
          [EvRecord (writer_name w) (writer_id w) n].

(** ** sendFastHTTPRequest *)

Definition sendFastHTTPRequest (client : HTTPClient) (req : FastRequest)
    (resp : option FastResponse) : M (option error * option FastResponse) :=
  let* '(err, resp) := client_Do client req resp in
  match err with
  | Some err =>
      metrics_IncHTTP (Request_Host req) (Request_Method req) StatusFail ;;;
      ret (Some err, resp)
  | None =>
      metrics_IncHTTP (Request_Host req) (Request_Method req) StatusSuccess ;;;
      ret (None, resp)
  end.

(** ** getHTTPJobConfigs *)

Definition getHTTPJobConfigs (ctx : Context) (args : Args) (global : GlobalConfig)
  : M (error + httpJobConfig BasicJobConfig Value * ClientConfig * MapStruct) :=
  match ParseConfig args global with
  | inl err => ret (inl (fmt_Errorf_w "error parsing job config" err))
  | inr jobConfig =>
      let* raw := on_world (templates_ParseAndExecuteMapStruct (Client jobConfig) ctx) (λ _, []) in
      match utils_Decode_ClientConfig raw with
      | inl err => ret (inl (fmt_Errorf_w "error parsing client config" err))
      | inr clientConfig =>
          let* clientConfig :=
            if bool_decide (GlobalConfig_ProxyURLs global ≠ "")
            then
              let* urls := on_world (templates_ParseAndExecute (GlobalConfig_ProxyURLs global) ctx)
                                    (λ _, []) in
              ret (ClientConfig_set_ProxyURLs clientConfig urls)
            else ret clientConfig in
          match templates_ParseMapStruct (Request jobConfig) with
          | inl err => ret (inl (fmt_Errorf_w "error parsing request config" err))
          | inr requestTpl => ret (inr (jobConfig, clientConfig, requestTpl))
          end
      end
  end.

(** ** The loaders of the response snapshot *)

Definition headerLoaderFunc (headers : gmap string string) (key value : string)
  : gmap string string :=
  <[key := value]> headers.

Definition cookieLoaderFunc (cookies : gmap string string) (key value : string)
  : M (gmap string string) :=
  match Cookie_ParseBytes value with
  | inl _ => ret cookies
  | inr c =>
      let expire := Cookie_Expire c in
      let* expired :=
        if bool_decide (expire ≠ fasthttp_CookieExpireUnlimited)
        then let* now := clock_Now in ret (expire <? now)%Z
        else ret false in
      if expired : bool
      then
        logger_Debug "cookie from the request expired" [zap_ByteString "cookie" key] ;;;
        ret cookies
      else ret (<[key := Cookie_Value c]> cookies)
  end.

(** [VisitAll] with a callback that only updates its map. *)
Definition visit {A} (f : A → string → string → A) (kvs : list (string * string)) (a : A) : A :=
  foldl (λ a kv, f a kv.1 kv.2) a kvs.

(** [VisitAllCookie] with a callback that also has effects. *)
Fixpoint visitM {A} (f : A → string → string → M A) (kvs : list (string * string)) (a : A)
  : M A :=
  match kvs with
  | [] => ret a
  | (key, value) :: kvs => let* a := f a key value in visitM f kvs a
  end.

(** ** singleRequestJob *)

(** The map literal under the key "response". *)
Record ResponseSnapshot : Type := {
  body : string;
  status_code : Z;
  headers : gmap string string;
  cookies : gmap string string;
}.

(** The map literal that the single-shot variant returns. *)
Record SingleResult : Type := {
  response : ResponseSnapshot;
  error_ : option error;
}.

(** [(data interface{}, err error)]; the only non-nil [data] is the map of
    the single-shot variant. *)
Definition job_result : Type := option SingleResult * option error.

Definition singleRequestJob (ctx : Context) (globalConfig : GlobalConfig) (args : Args)
  : M job_result :=
  let ctx := context_WithCancel ctx in
  let* cfgs := getHTTPJobConfigs ctx args globalConfig in
  match cfgs with
  | inl err => ret (None, Some err)
  | inr (_, clientConfig, requestTpl) =>
      let* raw := requestTpl_Execute requestTpl ctx in
      match utils_Decode_RequestConfig raw with
      | inl err => ret (None, Some err)
      | inr requestConfig =>
          let client := http_NewClient ctx clientConfig in
          let req := fasthttp_AcquireRequest in
          let resp := fasthttp_AcquireResponse in
          (if negb (isInEncryptedContext ctx)
           then log_Printf "Sent single http request to %v"
                           (PString (RequestConfig_Path requestConfig))
           else ret tt) ;;;
          let* '(dataSize, req) := InitRequest requestConfig req in
          let* id := uuid_New_String in
          metrics_Write Traffic id (uint64 dataSize) ;;;
          let* '(err, sent) := sendFastHTTPRequest client req (Some resp) in
          (* [resp] is still the acquired object, now filled by the client *)
          let resp := default resp sent in
          (match err with
           | None =>
               let* id := uuid_New_String in
               metrics_Write ProcessedTraffic id (uint64 dataSize)
           | Some _ => ret tt
           end) ;;;
          let headers := visit headerLoaderFunc (Response_VisitAll resp) ∅ in
          let* cookies := visitM cookieLoaderFunc (Response_VisitAllCookie resp) ∅ in
          ret (Some {| response := {| body := Response_Body resp;
                                      status_code := Response_StatusCode resp;
                                      headers := headers;
                                      cookies := cookies |};
                       error_ := err |},
               None)
      end
  end.

(** ** fastHTTPJob *)

(** What the loop keeps from [getHTTPJobConfigs] and the set-up. *)
Record LoopEnv : Type := {
  env_ctx : Context;
  env_args : Args;
  env_basic : BasicJobConfig;
  env_requestTpl : MapStruct;
  env_client : HTTPClient;
  env_trafficMonitor : Writer;
  env_processedTrafficMonitor : Writer;
}.

(** The [for jobConfig.Next(ctx) { ... }] loop, observed for [fuel]
    evaluations of its condition; [None] says that the loop is still
    running.  [req] and [backoffController] are the two objects that the
    iterations mutate. *)
Fixpoint fastHTTPJob_loop (fuel : nat) (env : LoopEnv) (req : FastRequest)
    (backoffController : BackoffController) : M (option job_result) :=
  match fuel with
  | O => ret None
  | S fuel =>
      let* ok := jobConfig_Next (env_basic env) (env_ctx env) in
      if ok : bool
      then
        let* raw := requestTpl_Execute (env_requestTpl env) (env_ctx env) in
        match utils_Decode_RequestConfig raw with
        | inl err =>
            ret (Some (None, Some (fmt_Errorf_w "error executing request template" err)))
        | inr requestConfig =>
            let* '(dataSize, req) := InitRequest requestConfig req in
            Writer_Add (env_trafficMonitor env) (uint64 dataSize) ;;;
            let* '(err, _) := sendFastHTTPRequest (env_client env) req None in
            let* backoffController :=
              match err with
              | Some err =>
                  logger_Debug "error sending request"
                               [zap_Error err; zap_Any "args" (env_args env)] ;;;
                  let backoffController := BackoffController_Increment backoffController in
                  Sleep (env_ctx env) (BackoffController_GetTimeout backoffController) ;;;
                  ret backoffController
              | None =>
                  Writer_Add (env_processedTrafficMonitor env) (uint64 dataSize) ;;;
                  ret (BackoffController_Reset backoffController)
              end in
            fastHTTPJob_loop fuel env req backoffController
        end
      else ret (Some (None, None))
  end.

Definition fastHTTPJob (fuel : nat) (ctx : Context) (globalConfig : GlobalConfig)
    (args : Args) : M (option job_result) :=
  let ctx := context_WithCancel ctx in
  let* cfgs := getHTTPJobConfigs ctx args globalConfig in
  match cfgs with
  | inl err => ret (Some (None, Some err))
  | inr (jobConfig, clientConfig, requestTpl) =>
      let backoffController :=
        utils_NewBackoffController
          (utils_NonNilBackoffConfigOrDefault
             (BasicJobConfig_BackoffConfig (Basic jobConfig))
             (GlobalConfig_Backoff globalConfig)) in
      let client := http_NewClient ctx clientConfig in
      let* id := uuid_New_String in
      let trafficMonitor := metrics_NewWriter Traffic id in
      let* id := uuid_New_String in
      let processedTrafficMonitor := metrics_NewWriter ProcessedTraffic id in
      let req := fasthttp_AcquireRequest in
      (if negb (isInEncryptedContext ctx)
       then log_Printf "Attacking %v" (PValue (Request jobConfig !! "path"))
       else ret tt) ;;;
      fastHTTPJob_loop fuel
        {| env_ctx := ctx; env_args := args; env_basic := Basic jobConfig;
           env_requestTpl := requestTpl; env_client := client;
           env_trafficMonitor := trafficMonitor;
           env_processedTrafficMonitor := processedTrafficMonitor |}
        req backoffController
  end.

(** ** The runs of the loop, as a relation

    [loop_run env req bc s r s' evs]: started with the request object
    [req] and the controller [bc] in state [s], the loop is observed to
    emit [evs] and to reach [s'], having returned [r] or, when [r] is
    [None], still running.  One constructor per way through the body. *)

Definition status_of (err : option error) : Status :=
  match err with Some _ => StatusFail | None => StatusSuccess end.

Inductive loop_run (env : LoopEnv)
  : FastRequest → BackoffController → state → option job_result → state → list event → Prop :=
| run_observed req bc s :
    loop_run env req bc s None s []
| run_denied req bc s w1 :
    BasicJobConfig_Next (env_basic env) (env_ctx env) (world s) = (false, w1) →
    loop_run env req bc s (Some (None, None)) {| world := w1; sink := sink s |} [EvNext false]
| run_template_error req bc s w1 raw w2 err :
    BasicJobConfig_Next (env_basic env) (env_ctx env) (world s) = (true, w1) →
    MapStruct_Execute (env_requestTpl env) (env_ctx env) w1 = (raw, w2) →
    utils_Decode_RequestConfig raw = inl err →
    loop_run env req bc s
      (Some (None, Some (fmt_Errorf_w "error executing request template" err)))
      {| world := w2; sink := sink s |}
      [EvNext true; EvExecute raw]
| run_delivered req bc s w1 raw w2 cfg out w3 r s' evs :
    BasicJobConfig_Next (env_basic env) (env_ctx env) (world s) = (true, w1) →
    MapStruct_Execute (env_requestTpl env) (env_ctx env) w1 = (raw, w2) →
    utils_Decode_RequestConfig raw = inr cfg →
    let dataSize := (http_InitRequest cfg req).1 in
    let req' := (http_InitRequest cfg req).2 in
    let tm := env_trafficMonitor env in
    let pm := env_processedTrafficMonitor env in
    HTTPClient_Do (env_client env) req' None w2 = (None, out, w3) →
    loop_run env req' (BackoffController_Reset bc)
      {| world := w3;
         sink := add_stream (writer_name pm) (writer_id pm) (uint64 dataSize)
                   (inc_http (Request_Host req') (Request_Method req') StatusSuccess
                      (add_stream (writer_name tm) (writer_id tm) (uint64 dataSize) (sink s))) |}
      r s' evs →
    loop_run env req bc s r s'
      ([EvNext true; EvExecute raw; EvInitRequest cfg dataSize;
        EvRecord (writer_name tm) (writer_id tm) (uint64 dataSize);
        EvDo req' None out;
        EvIncHTTP (Request_Host req') (Request_Method req') StatusSuccess;
        EvRecord (writer_name pm) (writer_id pm) (uint64 dataSize)] ++ evs)
| run_failed req bc s w1 raw w2 cfg err out w3 r s' evs :
    BasicJobConfig_Next (env_basic env) (env_ctx env) (world s) = (true, w1) →
    MapStruct_Execute (env_requestTpl env) (env_ctx env) w1 = (raw, w2) →
    utils_Decode_RequestConfig raw = inr cfg →
    let dataSize := (http_InitRequest cfg req).1 in
    let req' := (http_InitRequest cfg req).2 in
    let tm := env_trafficMonitor env in
    let bc' := BackoffController_Increment bc in
    HTTPClient_Do (env_client env) req' None w2 = (Some err, out, w3) →
    loop_run env req' bc'
      {| world := utils_Sleep (env_ctx env) (BackoffController_GetTimeout bc') w3;
         sink := inc_http (Request_Host req') (Request_Method req') StatusFail
                   (add_stream (writer_name tm) (writer_id tm) (uint64 dataSize) (sink s)) |}
      r s' evs →
    loop_run env req bc s r s'
      ([EvNext true; EvExecute raw; EvInitRequest cfg dataSize;
        EvRecord (writer_name tm) (writer_id tm) (uint64 dataSize);
        EvDo req' (Some err) out;
        EvIncHTTP (Request_Host req') (Request_Method req') StatusFail;
        EvDebug "error sending request" [zap_Error err; zap_Any "args" (env_args env)];
        EvSleep (BackoffController_GetTimeout bc')] ++ evs).

(** The writers of the loop are on the two streams, as [fastHTTPJob]
    creates them. *)
Definition env_streams (env : LoopEnv) : Prop :=
  writer_name (env_trafficMonitor env) = Traffic ∧
  writer_name (env_processedTrafficMonitor env) = ProcessedTraffic.

(** The runs of [fastHTTPJob]: the configuration is refused, or the loop
    is entered. *)
Definition Printf_unless_encrypted (ctx : Context) (format : string) (arg : printf_arg)
  : list event :=
  if isInEncryptedContext ctx then [] else [EvPrintf format arg].

Inductive job_run (ctx : Context) (globalConfig : GlobalConfig) (args : Args) (s : state)
  : option job_result → state → list event → Prop :=
| job_refused err s0 :
    getHTTPJobConfigs ctx args globalConfig s = (inl err, s0, []) →
    job_run ctx globalConfig args s (Some (None, Some err)) s0 []
| job_looped jobConfig clientConfig requestTpl s0 id1 w1 id2 w2 r s' evs :
    getHTTPJobConfigs ctx args globalConfig s = (inr (jobConfig, clientConfig, requestTpl), s0, []) →
    sink s0 = sink s →
    uuid_New (world s0) = (id1, w1) →
    uuid_New w1 = (id2, w2) →
    loop_run
      {| env_ctx := ctx; env_args := args; env_basic := Basic jobConfig;
         env_requestTpl := requestTpl; env_client := http_NewClient ctx clientConfig;
         env_trafficMonitor := metrics_NewWriter Traffic id1;
         env_processedTrafficMonitor := metrics_NewWriter ProcessedTraffic id2 |}
      fasthttp_AcquireRequest
      (utils_NewBackoffController
         (utils_NonNilBackoffConfigOrDefault
            (BasicJobConfig_BackoffConfig (Basic jobConfig))
            (GlobalConfig_Backoff globalConfig)))
      {| world := w2; sink := sink s |} r s' evs →
    job_run ctx globalConfig args s r s'
      ([EvUUID id1; EvUUID id2]
       ++ Printf_unless_encrypted ctx "Attacking %v" (PValue (Request jobConfig !! "path"))
       ++ evs).

(** The runs of [singleRequestJob]: the configuration or the template is
    refused, or the one exchange is made and the snapshot is built. *)
Inductive single_run (ctx : Context) (globalConfig : GlobalConfig) (args : Args) (s : state)
  : job_result → state → list event → Prop :=
| single_refused err s0 :
    getHTTPJobConfigs ctx args globalConfig s = (inl err, s0, []) →
    single_run ctx globalConfig args s (None, Some err) s0 []
| single_template_error jobConfig clientConfig requestTpl s0 raw w1 err :
    getHTTPJobConfigs ctx args globalConfig s = (inr (jobConfig, clientConfig, requestTpl), s0, []) →
    MapStruct_Execute requestTpl ctx (world s0) = (raw, w1) →
    utils_Decode_RequestConfig raw = inl err →
    single_run ctx globalConfig args s (None, Some err)
      {| world := w1; sink := sink s0 |} [EvExecute raw]
| single_exchanged jobConfig clientConfig requestTpl s0 raw w1 cfg id1 w2 err sent w3
                   w4 sink4 evd cks s5 evc :
    getHTTPJobConfigs ctx args globalConfig s = (inr (jobConfig, clientConfig, requestTpl), s0, []) →
    sink s0 = sink s →
    MapStruct_Execute requestTpl ctx (world s0) = (raw, w1) →
    utils_Decode_RequestConfig raw = inr cfg →
    let dataSize := (http_InitRequest cfg fasthttp_AcquireRequest).1 in
    let req := (http_InitRequest cfg fasthttp_AcquireRequest).2 in
    uuid_New w1 = (id1, w2) →
    HTTPClient_Do (http_NewClient ctx clientConfig) req (Some fasthttp_AcquireResponse) w2
      = (err, sent, w3) →
    let sink3 := inc_http (Request_Host req) (Request_Method req) (status_of err)
                   (add_stream Traffic id1 (uint64 dataSize) (sink s)) in
    match err with
    | None =>
        ∃ id2, uuid_New w3 = (id2, w4) ∧
               sink4 = add_stream ProcessedTraffic id2 (uint64 dataSize) sink3 ∧
               evd = [EvUUID id2; EvRecord ProcessedTraffic id2 (uint64 dataSize)]
    | Some _ => w4 = w3 ∧ sink4 = sink3 ∧ evd = []
    end →
    let resp := default fasthttp_AcquireResponse sent in
    visitM cookieLoaderFunc (Response_VisitAllCookie resp) ∅ {| world := w4; sink := sink4 |}
      = (cks, s5, evc) →
    single_run ctx globalConfig args s
      (Some {| response := {| body := Response_Body resp;
                              status_code := Response_StatusCode resp;
                              headers := visit headerLoaderFunc (Response_VisitAll resp) ∅;
                              cookies := cks |};
               error_ := err |},
       None)
      s5
      ([EvExecute raw]
       ++ Printf_unless_encrypted ctx "Sent single http request to %v"
            (PString (RequestConfig_Path cfg))
       ++ [EvInitRequest cfg dataSize; EvUUID id1; EvRecord Traffic id1 (uint64 dataSize);
           EvDo req err sent;
           EvIncHTTP (Request_Host req) (Request_Method req) (status_of err)]
       ++ evd ++ evc).

(** The errors of the configuration: what [getHTTPJobConfigs] returns when
    the job configuration, the client configuration or the request
    template is refused. *)
Definition configuration_error (args : Args) (global : GlobalConfig) (err : error) : Prop :=
  (∃ cause, ParseConfig args global = inl cause ∧
            err = fmt_Errorf_w "error parsing job config" cause) ∨
  (∃ raw cause, utils_Decode_ClientConfig raw = inl cause ∧
                err = fmt_Errorf_w "error parsing client config" cause) ∨
  (∃ jobConfig cause, ParseConfig args global = inr jobConfig ∧
                      templates_ParseMapStruct (Request jobConfig) = inl cause ∧
                      err = fmt_Errorf_w "error parsing request config" cause).

(** ** Observing a run *)

Definition result_of {A} (r : A * state * list event) : A := r.1.1.
Definition state_of {A} (r : A * state * list event) : state := r.1.2.
Definition events_of {A} (r : A * state * list event) : list event := r.2.

(** The total of a stream kind over all instance ids. *)
Definition kind_total (m : Metric) (ms : Metrics) : Z :=
  map_fold (λ k v acc, if bool_decide (k.1 = m) then (v + acc)%Z else acc) 0%Z (streams ms).

(** A monitor reads the events of a run in order and stops at the first
    one that its protocol forbids. *)
Fixpoint run_monitor {S} (step : S → event → option S) (st : S) (evs : list event)
  : option S :=
  match evs with
  | [] => Some st
  | e :: evs =>
      match step st e with
      | Some st => run_monitor step st evs
      | None => None
      end
  end.

(** The accounting protocol of one exchange. *)
Inductive acct : Type :=
| Idle                   (* no exchange under way *)
| Materialized (sz : Z)  (* [InitRequest] returned [sz]; nothing recorded yet *)
| Attempted (sz : Z)     (* [uint64 sz] is on the attempted stream; no call yet *)
| Delivered (sz : Z).    (* the call returned nil; the delivered record is due *)

Definition acct_step (a : acct) (e : event) : option acct :=
  match e with
  | EvInitRequest _ sz =>
      match a with Idle => Some (Materialized sz) | _ => None end
  | EvRecord Traffic _ n =>
      match a with
      | Materialized sz => if bool_decide (n = uint64 sz) then Some (Attempted sz) else None
      | _ => None
      end
  | EvDo _ err _ =>
      match a with
      | Attempted sz => Some (match err with None => Delivered sz | Some _ => Idle end)
      | _ => None
      end
  | EvRecord ProcessedTraffic _ n =>
      match a with
      | Delivered sz => if bool_decide (n = uint64 sz) then Some Idle else None
      | _ => None
      end
  | EvNext _ =>
      match a with Idle => Some Idle | _ => None end
  | _ => Some a
  end.

(** The events that the accounting protocol does not look at. *)
Definition acct_quiet (e : event) : bool :=
  match e with
  | EvInitRequest _ _ | EvRecord _ _ _ | EvDo _ _ _ | EvNext _ => false
  | _ => true
  end.

(** The accounting order, event by event.  Whenever the client is called,
    the events before the call end with the materialization of a size
    [sz] and then the record of [uint64 sz] on the attempted stream, with
    no other accounting event in between or after.  Whenever a record is
    made on the delivered stream, the events before it end with a record
    of the same value on the attempted stream and then a call of the
    client that returned nil, again with no accounting event in between or
    after; so a failed call, or a call already accounted for, is never
    followed by a delivered record. *)
Definition accounting_in_order (evs : list event) : Prop :=
  (∀ pre req err resp post,
     evs = pre ++ EvDo req err resp :: post →
     ∃ pre1 cfg sz mid1 id mid2,
       pre = pre1 ++ EvInitRequest cfg sz :: mid1 ++ EvRecord Traffic id (uint64 sz) :: mid2 ∧
       Forall (λ e, acct_quiet e = true) mid1 ∧ Forall (λ e, acct_quiet e = true) mid2) ∧
  (∀ pre id n post,
     evs = pre ++ EvRecord ProcessedTraffic id n :: post →
     ∃ pre1 id1 mid1 req resp mid2,
       pre = pre1 ++ EvRecord Traffic id1 n :: mid1 ++ EvDo req None resp :: mid2 ∧
       Forall (λ e, acct_quiet e = true) mid1 ∧ Forall (λ e, acct_quiet e = true) mid2).

(** The pacing protocol of the loop; the monitor carries the backoff
    controller as the calls before must have left it. *)
Inductive pace : Type :=
| Ready (bc : BackoffController)       (* no sleep is due *)
| MustSleep (bc : BackoffController).  (* the last send failed *)

Definition pace_step (p : pace) (e : event) : option pace :=
  match e with
  | EvDo _ None _ =>
      match p with Ready bc => Some (Ready (BackoffController_Reset bc)) | _ => None end
  | EvDo _ (Some _) _ =>
      match p with Ready bc => Some (MustSleep (BackoffController_Increment bc)) | _ => None end
  | EvSleep d =>
      match p with
      | MustSleep bc =>
          if bool_decide (d = BackoffController_GetTimeout bc) then Some (Ready bc) else None
      | Ready _ => None
      end
  | EvNext _ =>
      match p with Ready bc => Some (Ready bc) | MustSleep _ => None end
  | _ => Some p
  end.

Definition pace_controller (p : pace) : BackoffController :=
  match p with Ready bc | MustSleep bc => bc end.

(** The events that the pacing protocol does not look at. *)
Definition pace_quiet (e : event) : bool :=
  match e with
  | EvDo _ _ _ | EvSleep _ | EvNext _ => false
  | _ => true
  end.

(** The backoff controller after the sends among [evs]: reset by a send
    that returned nil, incremented by one that failed. *)
Fixpoint controller_after (bc : BackoffController) (evs : list event) : BackoffController :=
  match evs with
  | [] => bc
  | EvDo _ None _ :: evs => controller_after (BackoffController_Reset bc) evs
  | EvDo _ (Some _) _ :: evs => controller_after (BackoffController_Increment bc) evs
  | _ :: evs => controller_after bc evs
  end.

(** The pacing, event by event, for a loop started with controller [bc]:
    whenever the loop sleeps, the events before the sleep end with a send
    that failed, with no other send, sleep or call of [Next] after it,
    and the sleep lasts for the timeout of the controller as the sends up
    to and including that one left it. *)
Definition sleeps_follow_failures (bc : BackoffController) (evs : list event) : Prop :=
  ∀ pre d post,
    evs = pre ++ EvSleep d :: post →
    ∃ pre1 req err resp mid,
      pre = pre1 ++ EvDo req (Some err) resp :: mid ∧
      Forall (λ e, pace_quiet e = true) mid ∧
      d = BackoffController_GetTimeout (controller_after bc pre).

(** The exchanges of a run: for every call of the client, the payload size
    that [InitRequest] returned last and whether the call returned nil. *)
Fixpoint exchanges_from (cur : Z) (evs : list event) : list (Z * bool) :=
  match evs with
  | [] => []
  | EvInitRequest _ sz :: evs => exchanges_from sz evs
  | EvDo _ err _ :: evs => (cur, bool_decide (err = None)) :: exchanges_from cur evs
  | _ :: evs => exchanges_from cur evs
  end.

Definition exchanges (evs : list event) : list (Z * bool) := exchanges_from 0 evs.

Definition sum_sizes (l : list (Z * bool)) : Z := foldr (λ x acc, (x.1 + acc)%Z) 0%Z l.
Definition sum_recorded (l : list (Z * bool)) : Z :=
  foldr (λ x acc, (uint64 x.1 + acc)%Z) 0%Z l.
Definition succeeded (l : list (Z * bool)) : list (Z * bool) := List.filter snd l.

(** The calls of the client in a run. *)
Definition is_Do (e : event) : bool :=
  match e with EvDo _ _ _ => true | _ => false end.

(** What a log record tells.  Both [log.Printf] lines print the request
    path; a [zap.Any] field prints the arguments of the job, the request
    template with its path among them. *)
Definition is_Printf (e : event) : bool :=
  match e with EvPrintf _ _ => true | _ => false end.

Definition target_identifying (e : event) : bool :=
  match e with
  | EvPrintf _ _ => true
  | EvDebug _ fields =>
      existsb (λ f, match f with zap_Any _ _ => true | _ => false end) fields
  | _ => false
  end.

Definition is_failure_log (e : event) : bool :=
  match e with
  | EvDebug msg _ => bool_decide (msg = "error sending request")
  | _ => false
  end.

(** A field that names the method or the host and nothing else. *)
Definition method_or_host_field (f : zap_Field) : bool :=
  match f with
  | zap_ByteString key _ => bool_decide (key = "method" ∨ key = "host")
  | _ => false
  end.

Definition bounded_detail (e : event) : bool :=
  match e with
  | EvDebug _ fields => forallb method_or_host_field fields
  | _ => true
  end.

(** The events of [cookieLoaderFunc]: a reading of the clock, or the
    record of an expired cookie. *)
Definition is_cookie_event (e : event) : bool :=
  match e with
  | EvNow _ => true
  | EvDebug msg [zap_ByteString key _] =>
      bool_decide (msg = "cookie from the request expired" ∧ key = "cookie")
  | _ => false
  end.

(** The two halves of the logging rule, as properties of the
    collaborators that a run is made with. *)
Definition logs_withhold_target : Prop :=
  ∀ fuel ctx globalConfig args s,
    isInEncryptedContext ctx = true →
    Forall (λ e, target_identifying e = false)
           (events_of (fastHTTPJob fuel ctx globalConfig args s)) ∧
    Forall (λ e, target_identifying e = false)
           (events_of (singleRequestJob ctx globalConfig args s)).

Definition failure_logs_are_bounded : Prop :=
  ∀ fuel ctx globalConfig args s,
    Forall (λ e, is_failure_log e = true → bounded_detail e = true)
           (events_of (fastHTTPJob fuel ctx globalConfig args s)).

(** The value that the last pair with key [k] gives. *)
Definition last_binding (k : string) (kvs : list (string * string)) : option string :=
  foldl (λ acc kv, if bool_decide (kv.1 = k) then Some kv.2 else acc) None kvs.

(** ** Further observations *)

(** How many events of a kind a run has. *)
Definition count (p : event → bool) (evs : list event) : nat := length (List.filter p evs).

Definition is_granted (e : event) : bool :=
  match e with EvNext true => true | _ => false end.
Definition is_Next (e : event) : bool :=
  match e with EvNext _ => true | _ => false end.
Definition is_Execute (e : event) : bool :=
  match e with EvExecute _ => true | _ => false end.
Definition is_InitRequest (e : event) : bool :=
  match e with EvInitRequest _ _ => true | _ => false end.
Definition is_Sleep (e : event) : bool :=
  match e with EvSleep _ => true | _ => false end.
Definition is_Now (e : event) : bool :=
  match e with EvNow _ => true | _ => false end.
Definition is_Debug (e : event) : bool :=
  match e with EvDebug _ _ => true | _ => false end.
Definition is_UUID (e : event) : bool :=
  match e with EvUUID _ => true | _ => false end.

(** A call of the client for a request of this host and method that had
    this outcome. *)
Definition is_send_with (host method : string) (st : Status) (e : event) : bool :=
  match e with
  | EvDo req err _ =>
      bool_decide (Request_Host req = host ∧ Request_Method req = method ∧ status_of err = st)
  | _ => false
  end.

(** The request object after the calls of [InitRequest] among [evs], each
    of which rewrites the object that the one before left. *)
Fixpoint request_after (req : FastRequest) (evs : list event) : FastRequest :=
  match evs with
  | [] => req
  | EvInitRequest cfg _ :: evs => request_after (http_InitRequest cfg req).2 evs
  | _ :: evs => request_after req evs
  end.

(** A response cookie that parses and carries an expiry. *)
Definition dated (kv : string * string) : bool :=
  match Cookie_ParseBytes kv.2 with
  | inl _ => false
  | inr c => bool_decide (Cookie_Expire c ≠ fasthttp_CookieExpireUnlimited)
  end.

(** A response cookie that carries an expiry before [t]. *)
Definition expired_at (t : Z) (kv : string * string) : bool :=
  match Cookie_ParseBytes kv.2 with
  | inl _ => false
  | inr c =>
      bool_decide (Cookie_Expire c ≠ fasthttp_CookieExpireUnlimited) && (Cookie_Expire c <? t)%Z
  end.

(** The entry that a response cookie gives when the clock shows [t]: none
    when it does not parse or has expired, its name and parsed value
    otherwise. *)
Definition kept_at (t : Z) (kv : string * string) : option (string * string) :=
  match Cookie_ParseBytes kv.2 with
  | inl _ => None
  | inr c => if expired_at t kv then None else Some (kv.1, Cookie_Value c)
  end.

(** The record kinds and identities of the two writers of a job loop whose
    identifiers are [id1] and [id2]. *)
Definition on_job_streams (id1 id2 : string) (e : event) : Prop :=
  match e with
  | EvRecord m id _ => (m = Traffic ∧ id = id1) ∨ (m = ProcessedTraffic ∧ id = id2)
  | EvUUID _ => False
  | _ => True
  end.

(** The sends of a run by outcome, and the records by stream kind. *)
Definition is_failed_send (e : event) : bool :=
  match e with EvDo _ (Some _) _ => true | _ => false end.
Definition is_delivered_send (e : event) : bool :=
  match e with EvDo _ None _ => true | _ => false end.
Definition is_record_on (m : Metric) (e : event) : bool :=
  match e with EvRecord m' _ _ => bool_decide (m' = m) | _ => false end.

(** The Debug records of a run in order, each with its message and its
    fields. *)
Definition debug_records (evs : list event) : list (string * list zap_Field) :=
  omap (λ e, match e with EvDebug msg fields => Some (msg, fields) | _ => None end) evs.

(** The errors that the client returned in a run, in order. *)
Definition transport_errors (evs : list event) : list error :=
  omap (λ e, match e with EvDo _ (Some err) _ => Some err | _ => None end) evs.

(** The readings of the clock in a run, in order. *)
Definition clock_readings (evs : list event) : list Z :=
  omap (λ e, match e with EvNow t => Some t | _ => None end) evs.

(** The record that [fastHTTPJob] writes for a send that failed with
    [err], and the record that [cookieLoaderFunc] writes for an expired
    cookie named [key]. *)
Definition failed_send_record (args : Args) (err : error) : string * list zap_Field :=
  ("error sending request", [zap_Error err; zap_Any "args" args]).

Definition expired_cookie_record (key : string) : string * list zap_Field :=
  ("cookie from the request expired", [zap_ByteString "cookie" key]).

(** The names of the cookies among [kvs] that had expired when the clock
    was read for them.  The clock is read for the cookies that parse and
    carry an expiry; [ts] are the readings in order, one for each of
    them. *)
Definition expired_names (kvs : list (string * string)) (ts : list Z) : list string :=
  (List.filter (λ p, expired_at p.2 p.1) (zip (List.filter dated kvs) ts)).*1.*1.

End Job.

(** ** A scripted instance

    The world counts the calls of [Next] and the identifiers drawn; the
    answers of [Next], of the template and of the client are read from
    a script at the index of the iteration. *)

Record Script : Type := {
  sc_next : list bool;
  sc_raw : list string;
  sc_do : list (option error);
}.

Record ScriptedResponse : Type := {
  sr_body : string;
  sr_status : Z;
  sr_headers : list (string * string);
  sr_cookies : list (string * string);
}.

Definition scripted_empty_response : ScriptedResponse :=
  {| sr_body := ""; sr_status := 200; sr_headers := []; sr_cookies := [] |}.

Definition scripted_response : ScriptedResponse :=
  {| sr_body := "pong"; sr_status := 200;
     sr_headers := [("Server", "a"); ("Via", "b"); ("Server", "c")];
     sr_cookies := [("sid", "fresh"); ("old", "stale"); ("junk", "garbled");
                    ("keep", "session")] |}.

Definition scripted_parse_cookie (raw : string) : error + (Z * string) :=
  if bool_decide (raw = "fresh") then inr (2000%Z, "v1")
  else if bool_decide (raw = "stale") then inr (5%Z, "v2")
  else if bool_decide (raw = "session") then inr (0%Z, "v3")
  else inl (errors_New "no cookies found").

Record ScriptedWorld : Type := { next_calls : nat; ids_drawn : nat }.

Definition scripted_id (n : nat) : string :=
  String (Ascii.ascii_of_nat (97 + n)) "".

Definition scripted (sc : Script) : Collaborators := {|
  World := ScriptedWorld;
  Value := string;
  Args := string;
  GlobalConfig := unit;
  BasicJobConfig := unit;
  BackoffConfig := unit;
  BackoffController := Z;
  MapStruct := unit;
  RequestConfig := string;
  ClientConfig := unit;
  HTTPClient := unit;
  FastRequest := string;
  FastResponse := ScriptedResponse;
  Cookie := Z * string;
  ParseConfig := λ args _,
    if bool_decide (args = "") then inl (errors_New "empty args")
    else inr {| Basic := tt; Request := {["path" := args]}; Client := ∅ |};
  BasicJobConfig_Next := λ _ _ w,
    (nth (next_calls w) (sc_next sc) false,
     {| next_calls := S (next_calls w); ids_drawn := ids_drawn w |});
  BasicJobConfig_BackoffConfig := λ _, None;
  GlobalConfig_ProxyURLs := λ _, "";
  GlobalConfig_Backoff := λ _, tt;
  templates_ParseAndExecuteMapStruct := λ _ _ w, ("", w);
  templates_ParseAndExecute := λ tpl _ w, (tpl, w);
  templates_ParseMapStruct := λ _, inr tt;
  MapStruct_Execute := λ _ _ w, (nth (pred (next_calls w)) (sc_raw sc) "", w);
  utils_Decode_ClientConfig := λ _, inr tt;
  utils_Decode_RequestConfig := λ raw,
    if bool_decide (raw = "") then inl (errors_New "path is required") else inr raw;
  utils_Sleep := λ _ _ w, w;
  utils_NonNilBackoffConfigOrDefault := λ _ d, d;
  utils_NewBackoffController := λ _, 100%Z;
  BackoffController_Increment := λ t, Z.min (2 * t) 3200;
  BackoffController_Reset := λ _, 100%Z;
  BackoffController_GetTimeout := λ t, t;
  ClientConfig_set_ProxyURLs := λ c _, c;
  http_NewClient := λ _ _, tt;
  HTTPClient_Do := λ _ _ resp w,
    (nth (pred (next_calls w)) (sc_do sc) None, (λ _, scripted_response) <$> resp, w);
  http_InitRequest := λ cfg _, (Z.of_nat (String.length cfg), cfg);
  RequestConfig_Path := λ cfg, cfg;
  fasthttp_AcquireRequest := "";
  fasthttp_AcquireResponse := scripted_empty_response;
  Request_Host := λ req, req;
  Request_Method := λ _, "GET";
  Response_Body := sr_body;
  Response_StatusCode := sr_status;
  Response_VisitAll := sr_headers;
  Response_VisitAllCookie := sr_cookies;
  Cookie_ParseBytes := scripted_parse_cookie;
  Cookie_Expire := fst;
  Cookie_Value := snd;
  fasthttp_CookieExpireUnlimited := 0%Z;
  time_Now := λ w, (1000%Z, w);
  uuid_New := λ w,
    (scripted_id (ids_drawn w),
     {| next_calls := next_calls w; ids_drawn := S (ids_drawn w) |});
|}.

Definition scripted_state (sc : Script) : @state (scripted sc) :=
  @Build_state (scripted sc)
    {| next_calls := 0; ids_drawn := 0 |}
    {| streams := ∅; http_counters := ∅ |}.


Definition script_mixed : Script :=
  {| sc_next := [true; true; true; false];
     sc_raw := ["/a"; "/bcd"; "/ef"];
     sc_do := [None; Some (errors_New "timeout"); None] |}.

Definition script_broken_template : Script :=
  {| sc_next := [true; true; true];
     sc_raw := ["/a"; ""; "/ef"];
     sc_do := [None; None; None] |}.

Definition ctx_plain : Context := {| encrypted_value := false |}.
Definition ctx_encrypted : Context := {| encrypted_value := true |}.

(** The runs that the properties are tried on. *)
Definition loop_mixed (ctx : Context) (fuel : nat) :=
  @fastHTTPJob (scripted script_mixed) fuel ctx tt "target" (scripted_state script_mixed).

Definition loop_broken_template :=
  @fastHTTPJob (scripted script_broken_template) 5 ctx_plain tt "target"
    (scripted_state script_broken_template).

Definition single_mixed :=
  @singleRequestJob (scripted script_mixed) ctx_plain tt "target" (scripted_state script_mixed).

(** The record of the failed send of [loop_mixed]. *)
Definition failure_record : @event (scripted script_mixed) :=
  @EvDebug (scripted script_mixed) "error sending request"
    [@zap_Error (scripted script_mixed) (errors_New "timeout");
     @zap_Any (scripted script_mixed) "args" "target"].

(** * Properties *)

Section JobFacts.
Context {C : Collaborators}.

Lemma run_monitor_app {S} (step : S → event → option S) st e1 e2 :
  run_monitor step st (e1 ++ e2) = run_monitor step st e1 ≫= λ st, run_monitor step st e2.
Proof.
  revert st. induction e1 as [|e e1 IH]; intros st; simpl; [done|].
  destruct (step st e); simpl; [apply IH | done].
Qed.

(** What one call of [sendFastHTTPRequest] does, in full. *)
Lemma sendFastHTTPRequest_run client req resp s :
  sendFastHTTPRequest client req resp s =
  let '(err, out, w) := HTTPClient_Do client req resp (world s) in
  ((err, out),
   {| world := w;
      sink := inc_http (Request_Host req) (Request_Method req) (status_of err) (sink s) |},
   [EvDo req err out; EvIncHTTP (Request_Host req) (Request_Method req) (status_of err)]).
Proof.
  unfold sendFastHTTPRequest, bind, client_Do, on_world, metrics_IncHTTP, on_sink, ret.
  destruct (HTTPClient_Do client req resp (world s)) as [[[err|] out] w]; reflexivity.
Qed.

Lemma fastHTTPJob_loop_run_eq fuel env req bc s r s' evs :
  fastHTTPJob_loop fuel env req bc s = (r, s', evs) → loop_run env req bc s r s' evs.
Proof.
  revert req bc s r s' evs. induction fuel as [|fuel IH]; intros req bc s r s' evs H.
  { cbv [fastHTTPJob_loop ret] in H. simplify_eq. apply run_observed. }
  cbn [fastHTTPJob_loop] in H.
  unfold bind at 1, jobConfig_Next at 1, on_world at 1 in H.
  destruct (BasicJobConfig_Next (env_basic env) (env_ctx env) (world s)) as [[|] w1] eqn:HN;
    [|cbv [ret] in H; simplify_eq; by apply run_denied].
  unfold bind at 1, requestTpl_Execute at 1, on_world at 1 in H. cbn [world sink] in H.
  destruct (MapStruct_Execute (env_requestTpl env) (env_ctx env) w1) as [raw w2] eqn:HE.
  destruct (utils_Decode_RequestConfig raw) as [err|cfg] eqn:HD.
  { cbv [ret] in H. simplify_eq. by eapply run_template_error. }
  unfold bind at 1, InitRequest at 1 in H.
  pose proof (run_delivered env req bc s w1 raw w2 cfg) as Rok.
  pose proof (run_failed env req bc s w1 raw w2 cfg) as Rko.
  destruct (http_InitRequest cfg req) as [dataSize req'] eqn:HI.
  unfold bind at 1, Writer_Add at 1, on_sink at 1 in H. cbn [world sink] in H.
  unfold bind at 1 in H. rewrite sendFastHTTPRequest_run in H. cbn [world sink] in H.
  destruct (HTTPClient_Do (env_client env) req' None w2) as [[[err|] out] w3] eqn:HDo.
  - unfold bind at 1 2 3, logger_Debug, emit, Sleep, on_world, ret in H.
    cbn [world sink status_of] in H.
    destruct (fastHTTPJob_loop fuel env req' _ _) as [[r1 s1] evs1] eqn:HL.
    simplify_eq. apply IH in HL.
    apply (Rko err out w3 r s' evs1 HN HE HD HDo HL).
  - unfold bind at 1 2, Writer_Add, on_sink, ret in H. cbn [world sink status_of] in H.
    destruct (fastHTTPJob_loop fuel env req' _ _) as [[r1 s1] evs1] eqn:HL.
    simplify_eq. apply IH in HL.
    apply (Rok out w3 r s' evs1 HN HE HD HDo HL).
Qed.

Lemma fastHTTPJob_loop_run fuel env req bc s :
  loop_run env req bc s
    (result_of (fastHTTPJob_loop fuel env req bc s))
    (state_of (fastHTTPJob_loop fuel env req bc s))
    (events_of (fastHTTPJob_loop fuel env req bc s)).
Proof.
  destruct (fastHTTPJob_loop fuel env req bc s) as [[r s'] evs] eqn:H.
  by apply fastHTTPJob_loop_run_eq in H.
Qed.

(** [getHTTPJobConfigs] emits no event and leaves the sink alone. *)
Lemma getHTTPJobConfigs_eq ctx args global s r s0 evs :
  getHTTPJobConfigs ctx args global s = (r, s0, evs) → evs = [] ∧ sink s0 = sink s.
Proof.
  unfold getHTTPJobConfigs.
  destruct (ParseConfig args global) as [err|jobConfig].
  { cbv [ret]. by intros ?; simplify_eq. }
  unfold bind at 1, on_world at 1.
  destruct (templates_ParseAndExecuteMapStruct _ _ _) as [raw w1].
  destruct (utils_Decode_ClientConfig raw) as [err|clientConfig].
  { cbv [ret]. by intros ?; simplify_eq. }
  unfold bind at 1.
  case_bool_decide.
  - unfold bind at 1, on_world at 1. cbn [world sink].
    destruct (templates_ParseAndExecute _ _ _) as [urls w2]. cbv [ret].
    destruct (templates_ParseMapStruct _); by intros ?; simplify_eq.
  - cbv [ret]. destruct (templates_ParseMapStruct _); by intros ?; simplify_eq.
Qed.

Lemma fastHTTPJob_run_eq fuel ctx globalConfig args s r s' evs :
  fastHTTPJob fuel ctx globalConfig args s = (r, s', evs) →
  job_run ctx globalConfig args s r s' evs.
Proof.
  unfold fastHTTPJob, context_WithCancel. unfold bind at 1.
  destruct (getHTTPJobConfigs ctx args globalConfig s) as [[cfgs s0] e0] eqn:HC.
  destruct (getHTTPJobConfigs_eq _ _ _ _ _ _ _ HC) as [-> Hs].
  destruct cfgs as [err|[[jobConfig clientConfig] requestTpl]].
  { cbv [ret]. intros ?; simplify_eq. by apply job_refused. }
  unfold bind at 1, uuid_New_String at 1, on_world at 1.
  destruct (uuid_New (world s0)) as [id1 w1] eqn:H1.
  unfold bind at 1, uuid_New_String at 1, on_world at 1. cbn [world sink].
  destruct (uuid_New w1) as [id2 w2] eqn:H2.
  unfold bind at 1.
  pose proof (job_looped ctx globalConfig args s jobConfig clientConfig requestTpl
                s0 id1 w1 id2 w2) as R.
  unfold Printf_unless_encrypted in R.
  destruct (isInEncryptedContext ctx); cbn [negb];
    cbv [log_Printf emit ret]; rewrite Hs;
    destruct (fastHTTPJob_loop fuel _ _ _ _) as [[r1 s1] evs1] eqn:HL;
    apply fastHTTPJob_loop_run_eq in HL;
    intros ?; simplify_eq; by apply R.
Qed.

Lemma fastHTTPJob_run fuel ctx globalConfig args s :
  job_run ctx globalConfig args s
    (result_of (fastHTTPJob fuel ctx globalConfig args s))
    (state_of (fastHTTPJob fuel ctx globalConfig args s))
    (events_of (fastHTTPJob fuel ctx globalConfig args s)).
Proof.
  destruct (fastHTTPJob fuel ctx globalConfig args s) as [[r s'] evs] eqn:H.
  by apply fastHTTPJob_run_eq in H.
Qed.

Lemma singleRequestJob_run_eq ctx globalConfig args s r s' evs :
  singleRequestJob ctx globalConfig args s = (r, s', evs) →
  single_run ctx globalConfig args s r s' evs.
Proof.
  unfold singleRequestJob, context_WithCancel. unfold bind at 1.
  destruct (getHTTPJobConfigs ctx args globalConfig s) as [[cfgs s0] e0] eqn:HC.
  destruct (getHTTPJobConfigs_eq _ _ _ _ _ _ _ HC) as [-> Hs].
  destruct cfgs as [err|[[jobConfig clientConfig] requestTpl]].
  { cbv [ret]. intros ?; simplify_eq. by apply single_refused. }
  unfold bind at 1, requestTpl_Execute at 1, on_world at 1.
  destruct (MapStruct_Execute requestTpl ctx (world s0)) as [raw w1] eqn:HE.
  destruct (utils_Decode_RequestConfig raw) as [err|cfg] eqn:HD.
  { cbv [ret]. intros ?; simplify_eq. by eapply single_template_error. }
  unfold bind at 1.
  set (pr := (if negb (isInEncryptedContext ctx)
              then log_Printf "Sent single http request to %v"
                     (PString (RequestConfig_Path cfg))
              else ret ()) {| world := w1; sink := sink s0 |}).
  assert (pr = (tt, {| world := w1; sink := sink s0 |},
                if isInEncryptedContext ctx then []
                else [EvPrintf "Sent single http request to %v"
                        (PString (RequestConfig_Path cfg))])) as ->.
  { subst pr. by destruct (isInEncryptedContext ctx). }
  unfold bind at 1, InitRequest at 1.
  destruct (http_InitRequest cfg fasthttp_AcquireRequest) as [dataSize req] eqn:HI.
  unfold bind at 1, uuid_New_String at 1, on_world at 1. cbn [world sink].
  destruct (uuid_New w1) as [id1 w2] eqn:H1.
  pose proof (single_exchanged ctx globalConfig args s jobConfig clientConfig requestTpl
                s0 raw w1 cfg) as R.
  unfold Printf_unless_encrypted in R. rewrite HI in R. cbn [fst snd] in R.
  unfold bind at 1, metrics_Write at 1, on_sink at 1. cbn [world sink].
  unfold bind at 1. rewrite sendFastHTTPRequest_run. cbn [world sink].
  destruct (HTTPClient_Do (http_NewClient ctx clientConfig) req
              (Some fasthttp_AcquireResponse) w2) as [[err sent] w3] eqn:HDo.
  unfold bind at 1.
  destruct err as [err|].
  - cbv [ret]. unfold bind at 1.
    destruct (visitM cookieLoaderFunc _ _ _) as [[cks s5] evc] eqn:HV.
    intros ?; simplify_eq. rewrite Hs in HV. rewrite ?app_nil_r.
    by refine (R id1 w2 (Some err) sent w3 w3 _ [] cks s' evc HC Hs HE HD H1 HDo _ HV).
  - unfold bind at 1, uuid_New_String at 1, on_world at 1. cbn [world sink].
    destruct (uuid_New w3) as [id2 w4] eqn:H2.
    unfold metrics_Write at 1, on_sink at 1. cbn [world sink].
    unfold bind at 1.
    destruct (visitM cookieLoaderFunc _ _ _) as [[cks s5] evc] eqn:HV.
    cbv [ret]. intros ?; simplify_eq. rewrite Hs in HV. rewrite ?app_nil_r.
    refine (R id1 w2 None sent w3 w4 _
              [EvUUID id2; EvRecord ProcessedTraffic id2 (uint64 dataSize)]
              cks s' evc HC Hs HE HD H1 HDo _ HV).
    by exists id2.
Qed.

Lemma singleRequestJob_run ctx globalConfig args s :
  single_run ctx globalConfig args s
    (result_of (singleRequestJob ctx globalConfig args s))
    (state_of (singleRequestJob ctx globalConfig args s))
    (events_of (singleRequestJob ctx globalConfig args s)).
Proof.
  destruct (singleRequestJob ctx globalConfig args s) as [[r s'] evs] eqn:H.
  by apply singleRequestJob_run_eq in H.
Qed.

(** *** The events of the cookie loader *)

Lemma cookieLoaderFunc_events cks key value s cks' s' evs :
  cookieLoaderFunc cks key value s = (cks', s', evs) →
  Forall (λ e, is_cookie_event e = true) evs ∧ sink s' = sink s.
Proof.
  unfold cookieLoaderFunc.
  destruct (Cookie_ParseBytes value) as [err|c].
  { cbv [ret]. by intros ?; simplify_eq. }
  unfold bind at 1. case_bool_decide.
  - unfold bind at 1, clock_Now at 1, on_world at 1.
    destruct (time_Now (world s)) as [now w1]. cbv [ret]. cbn [world sink].
    destruct (Cookie_Expire c <? now)%Z;
      cbv [bind logger_Debug emit ret]; intros ?; simplify_eq; split; try done;
      repeat constructor.
  - cbv [ret]. by intros ?; simplify_eq.
Qed.

Lemma visitM_cookie_events kvs cks s cks' s' evs :
  visitM cookieLoaderFunc kvs cks s = (cks', s', evs) →
  Forall (λ e, is_cookie_event e = true) evs ∧ sink s' = sink s.
Proof.
  revert cks s cks' s' evs.
  induction kvs as [|[key value] kvs IH]; intros cks s cks' s' evs.
  { cbv [visitM ret]. by intros ?; simplify_eq. }
  cbn [visitM]. unfold bind at 1.
  destruct (cookieLoaderFunc cks key value s) as [[cks1 s1] e1] eqn:H1.
  destruct (visitM cookieLoaderFunc kvs cks1 s1) as [[cks2 s2] e2] eqn:H2.
  intros ?; simplify_eq.
  apply cookieLoaderFunc_events in H1 as [F1 S1].
  apply IH in H2 as [F2 S2].
  split; [by apply Forall_app | congruence].
Qed.

(** A monitor that ignores the events of the cookie loader stays where it
    is while the cookies are visited. *)
Lemma run_monitor_ignored {S} (step : S → event → option S) st evs :
  (∀ st e, is_cookie_event e = true → step st e = Some st) →
  Forall (λ e, is_cookie_event e = true) evs →
  run_monitor step st evs = Some st.
Proof.
  intros Hstep. induction 1 as [|e evs He _ IH]; [done|].
  cbn. by rewrite (Hstep st e He).
Qed.

Lemma run_monitor_Printf {S} (step : S → event → option S) st ctx format arg evs :
  (∀ st format arg, step st (EvPrintf format arg) = Some st) →
  run_monitor step st (Printf_unless_encrypted ctx format arg ++ evs) = run_monitor step st evs.
Proof.
  intros Hstep. unfold Printf_unless_encrypted.
  destruct (isInEncryptedContext ctx); cbn; [done|]. by rewrite Hstep.
Qed.

Lemma acct_step_cookie a e : is_cookie_event e = true → acct_step a e = Some a.
Proof. by destruct e. Qed.

(** *** Reading a monitor

    The state that a monitor is in after some events is the one that the
    last event it looks at left. *)

Lemma run_monitor_snoc {S} (step : S → event → option S) st evs e :
  run_monitor step st (evs ++ [e]) = run_monitor step st evs ≫= λ st, step st e.
Proof.
  rewrite run_monitor_app. destruct (run_monitor step st evs) as [st'|]; [|done].
  cbn. by destruct (step st' e).
Qed.

Lemma run_monitor_last {S} (step : S → event → option S) (quiet : event → bool) st evs st' :
  (∀ st e, quiet e = true → step st e = Some st) →
  run_monitor step st evs = Some st' →
  (Forall (λ e, quiet e = true) evs ∧ st' = st) ∨
  ∃ pre e mid st1,
    evs = pre ++ e :: mid ∧ Forall (λ e, quiet e = true) mid ∧ quiet e = false ∧
    run_monitor step st pre = Some st1 ∧ step st1 e = Some st'.
Proof.
  intros Hq. revert st'. induction evs as [|e evs IH] using rev_ind; intros st' Hrun.
  { left. cbn in Hrun. by simplify_eq. }
  rewrite run_monitor_snoc in Hrun.
  destruct (run_monitor step st evs) as [st1|] eqn:H1; [|by cbn in Hrun]. cbn in Hrun.
  destruct (quiet e) eqn:He.
  - rewrite (Hq _ _ He) in Hrun. simplify_eq.
    destruct (IH _ eq_refl) as [[Hall ->] | (pre & e0 & mid & st0 & -> & Hmid & He0 & Hpre & Hst)].
    + left. split; [|done]. apply Forall_app. split; [done|]. by constructor.
    + right. exists pre, e0, (mid ++ [e]), st0. rewrite <-(assoc_L (++)). cbn.
      repeat split; try done. apply Forall_app. split; [done|]. by constructor.
  - right. exists evs, e, [], st1. by repeat split.
Qed.

Lemma run_monitor_split {S} (step : S → event → option S) st pre e post st' :
  run_monitor step st (pre ++ e :: post) = Some st' →
  ∃ st1 st2, run_monitor step st pre = Some st1 ∧ step st1 e = Some st2.
Proof.
  rewrite run_monitor_app.
  destruct (run_monitor step st pre) as [st1|]; cbn; [|done].
  destruct (step st1 e) as [st2|] eqn:Hst; [|done]. intros _. by exists st1, st2.
Qed.

Lemma acct_step_quiet a e : acct_quiet e = true → acct_step a e = Some a.
Proof. by destruct e. Qed.

Lemma acct_Materialized evs sz :
  run_monitor acct_step Idle evs = Some (Materialized sz) →
  ∃ pre cfg mid,
    evs = pre ++ EvInitRequest cfg sz :: mid ∧ Forall (λ e, acct_quiet e = true) mid.
Proof.
  intros Hrun.
  destruct (run_monitor_last _ _ _ _ _ acct_step_quiet Hrun)
    as [[_ ?] | (pre & e & mid & a1 & -> & Hmid & He & Hpre & Hst)]; [done|].
  exists pre. destruct e as [| | | |cfg sz'|? |[] ? n|? [] ?| | |], a1;
    cbn in Hst, He; try case_bool_decide; simplify_eq.
  by exists cfg, mid.
Qed.

Lemma acct_Attempted evs sz :
  run_monitor acct_step Idle evs = Some (Attempted sz) →
  ∃ pre cfg mid1 id mid2,
    evs = pre ++ EvInitRequest cfg sz :: mid1 ++ EvRecord Traffic id (uint64 sz) :: mid2 ∧
    Forall (λ e, acct_quiet e = true) mid1 ∧ Forall (λ e, acct_quiet e = true) mid2.
Proof.
  intros Hrun.
  destruct (run_monitor_last _ _ _ _ _ acct_step_quiet Hrun)
    as [[_ ?] | (pre & e & mid & a1 & -> & Hmid & He & Hpre & Hst)]; [done|].
  destruct e as [| | | |cfg sz'|? |[] id n|? [] ?| | |], a1;
    cbn in Hst, He; try case_bool_decide; simplify_eq.
  destruct (acct_Materialized _ _ Hpre) as (pre1 & cfg & mid1 & -> & Hmid1).
  exists pre1, cfg, mid1, id, mid. rewrite <-(assoc_L (++)). by repeat split.
Qed.

Lemma acct_Delivered evs sz :
  run_monitor acct_step Idle evs = Some (Delivered sz) →
  ∃ pre id mid1 req resp mid2,
    evs = pre ++ EvRecord Traffic id (uint64 sz) :: mid1 ++ EvDo req None resp :: mid2 ∧
    Forall (λ e, acct_quiet e = true) mid1 ∧ Forall (λ e, acct_quiet e = true) mid2.
Proof.
  intros Hrun.
  destruct (run_monitor_last _ _ _ _ _ acct_step_quiet Hrun)
    as [[_ ?] | (pre & e & mid & a1 & -> & Hmid & He & Hpre & Hst)]; [done|].
  destruct e as [| | | |cfg sz'|? |[] id n|req [] resp| | |], a1;
    cbn in Hst, He; try case_bool_decide; simplify_eq.
  destruct (acct_Attempted _ _ Hpre) as (pre1 & cfg & mid1 & id & mid2 & -> & Hmid1 & Hmid2).
  exists (pre1 ++ EvInitRequest cfg sz :: mid1), id, mid2, req, resp, mid.
  rewrite <-!(assoc_L (++)). cbn. rewrite <-!(assoc_L (++)). by repeat split.
Qed.

Lemma acct_accepted_in_order evs a :
  run_monitor acct_step Idle evs = Some a → accounting_in_order evs.
Proof.
  intros Hrun. split.
  - intros pre req err resp post ->.
    destruct (run_monitor_split _ _ _ _ _ _ Hrun) as (a1 & a2 & Hpre & Hst).
    destruct a1; cbn in Hst; simplify_eq.
    destruct (acct_Attempted _ _ Hpre) as (pre1 & cfg & mid1 & id & mid2 & -> & ? & ?).
    by exists pre1, cfg, sz, mid1, id, mid2.
  - intros pre id n post ->.
    destruct (run_monitor_split _ _ _ _ _ _ Hrun) as (a1 & a2 & Hpre & Hst).
    destruct a1; cbn in Hst; try case_bool_decide; simplify_eq.
    destruct (acct_Delivered _ _ Hpre) as (pre1 & id1 & mid1 & req & resp & mid2 & -> & ? & ?).
    by exists pre1, id1, mid1, req, resp, mid2.
Qed.

Lemma pace_step_quiet p e : pace_quiet e = true → pace_step p e = Some p.
Proof. by destruct e. Qed.

Lemma pace_controller_after p evs p' :
  run_monitor pace_step p evs = Some p' →
  pace_controller p' = controller_after (pace_controller p) evs.
Proof.
  revert p. induction evs as [|e evs IH]; intros p Hrun.
  { cbn in Hrun. by simplify_eq. }
  cbn [run_monitor] in Hrun. destruct (pace_step p e) as [p1|] eqn:Hst; [|done].
  rewrite (IH _ Hrun).
  destruct e as [| | | | | | |req [err|] resp|d| |], p; cbn in Hst;
    try case_bool_decide; by simplify_eq.
Qed.

Lemma pace_MustSleep bc evs bc' :
  run_monitor pace_step (Ready bc) evs = Some (MustSleep bc') →
  ∃ pre req err resp mid,
    evs = pre ++ EvDo req (Some err) resp :: mid ∧ Forall (λ e, pace_quiet e = true) mid.
Proof.
  intros Hrun.
  destruct (run_monitor_last _ _ _ _ _ pace_step_quiet Hrun)
    as [[_ ?] | (pre & e & mid & p1 & -> & Hmid & He & Hpre & Hst)]; [done|].
  destruct e as [| | | | | | |req [err|] resp|d| |], p1; cbn in Hst, He;
    try case_bool_decide; simplify_eq.
  by exists pre, req, err, resp, mid.
Qed.

Lemma pace_accepted_sleeps bc evs p :
  run_monitor pace_step (Ready bc) evs = Some p → sleeps_follow_failures bc evs.
Proof.
  intros Hrun pre d post ->.
  destruct (run_monitor_split _ _ _ _ _ _ Hrun) as (p1 & p2 & Hpre & Hst).
  destruct p1 as [bc1|bc1]; cbn in Hst; [done|]. case_bool_decide as Hd; [|done].
  destruct (pace_MustSleep _ _ _ Hpre) as (pre1 & req & err & resp & mid & -> & Hmid).
  exists pre1, req, err, resp, mid. repeat split; try done.
  pose proof (pace_controller_after _ _ _ Hpre) as Hc. cbn [pace_controller] in Hc.
  by rewrite <-Hc.
Qed.

(** *** C1: the accounting protocol *)

Lemma loop_run_acct env req bc s r s' evs :
  env_streams env →
  loop_run env req bc s r s' evs →
  run_monitor acct_step Idle evs = Some Idle.
Proof.
  intros [Ht Hp]. induction 1 as
    [ | | | req bc s w1 raw w2 cfg out w3 r s' evs HN HE HD dataSize req' tm pm HDo _ IH
      | req bc s w1 raw w2 cfg err out w3 r s' evs HN HE HD dataSize req' tm bc' HDo _ IH ];
    try done.
  - subst tm pm. rewrite run_monitor_app, Ht, Hp. cbn.
    by rewrite !bool_decide_eq_true_2.
  - subst tm. rewrite run_monitor_app, Ht. cbn.
    by rewrite !bool_decide_eq_true_2.
Qed.

Lemma jobs_accounting_accepted fuel ctx globalConfig args s :
  run_monitor acct_step Idle (events_of (fastHTTPJob fuel ctx globalConfig args s)) = Some Idle ∧
  run_monitor acct_step Idle (events_of (singleRequestJob ctx globalConfig args s)) = Some Idle.
Proof.
  split.
  - destruct (fastHTTPJob_run fuel ctx globalConfig args s)
      as [ | jobConfig clientConfig requestTpl s0 id1 w1 id2 w2 r s' evs HC Hs H1 H2 HL ];
      [done|].
    cbn [app run_monitor acct_step]. rewrite run_monitor_Printf by done.
    by refine (loop_run_acct _ _ _ _ _ _ _ _ HL).
  - destruct (singleRequestJob_run ctx globalConfig args s)
      as [ | | jobConfig clientConfig requestTpl s0 raw w1 cfg id1 w2 err sent w3
               w4 sink4 evd cks s5 evc HC Hs HE HD dataSize req H1 HDo sink3 Hd resp HV ];
      [done..|].
    apply visitM_cookie_events in HV as [HV _].
    cbn [app run_monitor acct_step]. rewrite run_monitor_Printf by done.
    cbn [app run_monitor acct_step]. rewrite bool_decide_eq_true_2 by done.
    destruct err as [err|].
    + destruct Hd as (-> & -> & ->). cbn.
      apply run_monitor_ignored; [apply acct_step_cookie | done].
    + destruct Hd as (id2 & H2 & -> & ->). cbn. rewrite bool_decide_eq_true_2 by done.
      apply run_monitor_ignored; [apply acct_step_cookie | done].
Qed.

(** C1.  In every run of [fastHTTPJob], observed for any number of
    iterations, and in every run of [singleRequestJob], the events are in
    the accounting order: the client is called only after the size that
    [InitRequest] returned has been recorded on the attempted stream, and
    a record on the delivered stream is made only after a call of the
    client that returned nil, with the value recorded on the attempted
    stream before that call; a call that failed has no delivered record.
    The runs moreover follow the accounting protocol [acct_step] to its
    end: when [Next] is called again or the job is over, every
    exchange that returned nil has its delivered record. *)
Theorem accounting_follows_protocol fuel ctx globalConfig args s :
  let loop_events := events_of (fastHTTPJob fuel ctx globalConfig args s) in
  let single_events := events_of (singleRequestJob ctx globalConfig args s) in
  (accounting_in_order loop_events ∧
   run_monitor acct_step Idle loop_events = Some Idle) ∧
  (accounting_in_order single_events ∧
   run_monitor acct_step Idle single_events = Some Idle).
Proof.
  destruct (jobs_accounting_accepted fuel ctx globalConfig args s) as [Hl Hs].
  cbn zeta. repeat split; try done; by eapply acct_accepted_in_order.
Qed.

(** *** C2: the pacing protocol *)

Lemma loop_run_pace env req bc s r s' evs :
  loop_run env req bc s r s' evs →
  ∃ bc', run_monitor pace_step (Ready bc) evs = Some (Ready bc').
Proof.
  induction 1 as
    [ req bc s | req bc s w1 HN | req bc s w1 raw w2 err HN HE HD
      | req bc s w1 raw w2 cfg out w3 r s' evs HN HE HD dataSize req' tm pm HDo _ [bc1 IH]
      | req bc s w1 raw w2 cfg err out w3 r s' evs HN HE HD dataSize req' tm bc' HDo _ [bc1 IH] ];
    [by eexists..| |].
  - exists bc1. rewrite run_monitor_app. by cbn.
  - exists bc1. subst bc'. rewrite run_monitor_app. cbn. by rewrite bool_decide_eq_true_2.
Qed.

(** C2.  In the job loop, started with the controller that [fastHTTPJob]
    builds, every sleep directly follows a send that failed (no other
    send, sleep or call of [Next] lies between them) and lasts
    for the timeout of the controller as the sends so far left it: reset
    by each send that returned nil, incremented by each that failed, the
    last one included.  The run moreover follows the pacing protocol
    [pace_step]: after a send that returned nil no sleep occurs before the
    throttle [Next] is called, and after a failed send exactly one does.
    When the configuration is refused there is no event at all. *)
Theorem sleep_only_after_failed_send fuel ctx globalConfig args s :
  match result_of (getHTTPJobConfigs ctx args globalConfig s) with
  | inl _ => events_of (fastHTTPJob fuel ctx globalConfig args s) = []
  | inr (jobConfig, _, _) =>
      let bc0 :=
        utils_NewBackoffController
          (utils_NonNilBackoffConfigOrDefault
             (BasicJobConfig_BackoffConfig (Basic jobConfig))
             (GlobalConfig_Backoff globalConfig)) in
      sleeps_follow_failures bc0 (events_of (fastHTTPJob fuel ctx globalConfig args s)) ∧
      ∃ bc, run_monitor pace_step (Ready bc0)
              (events_of (fastHTTPJob fuel ctx globalConfig args s))
            = Some (Ready bc)
  end.
Proof.
  destruct (fastHTTPJob_run fuel ctx globalConfig args s)
    as [ err s0 HC | jobConfig clientConfig requestTpl s0 id1 w1 id2 w2 r s' evs HC Hs H1 H2 HL ];
    rewrite HC; cbn [result_of fst]; [done|].
  cbn zeta.
  assert (∃ bc, run_monitor pace_step
                  (Ready (utils_NewBackoffController
                            (utils_NonNilBackoffConfigOrDefault
                               (BasicJobConfig_BackoffConfig (Basic jobConfig))
                               (GlobalConfig_Backoff globalConfig))))
                  ([EvUUID id1; EvUUID id2]
                   ++ Printf_unless_encrypted ctx "Attacking %v"
                        (PValue (Request jobConfig !! "path")) ++ evs)
                = Some (Ready bc)) as [bc Hbc].
  { cbn [app run_monitor pace_step]. rewrite run_monitor_Printf by done.
    exact (loop_run_pace _ _ _ _ _ _ _ HL). }
  split; [by eapply pace_accepted_sleeps | by exists bc].
Qed.

(** *** C9: the per-exchange counter *)

(** C9.  [sendFastHTTPRequest] returns what [client.Do] returned, error
    and response sink unchanged, and increments exactly one counter of the
    sink: the one keyed by the host and the method of the request and by
    [StatusFail] when [client.Do] returned an error, by [StatusSuccess]
    when it returned nil.  Every other counter and every traffic stream is
    left as it was. *)
Theorem sendFastHTTPRequest_counts_once client req resp s :
  let '(err, out, w) := HTTPClient_Do client req resp (world s) in
  let run := sendFastHTTPRequest client req resp s in
  result_of run = (err, out) ∧
  world (state_of run) = w ∧
  (∀ host method st,
     http_count host method st (sink (state_of run)) =
     if bool_decide (host = Request_Host req ∧ method = Request_Method req ∧
                     st = match err with Some _ => StatusFail | None => StatusSuccess end)
     then S (http_count host method st (sink s))
     else http_count host method st (sink s)) ∧
  streams (sink (state_of run)) = streams (sink s) ∧
  events_of run =
    [EvDo req err out;
     EvIncHTTP (Request_Host req) (Request_Method req)
       match err with Some _ => StatusFail | None => StatusSuccess end].
Proof.
  rewrite sendFastHTTPRequest_run.
  destruct (HTTPClient_Do client req resp (world s)) as [[err out] w].
  cbn [result_of state_of events_of fst snd world sink].
  repeat split.
  intros host method st. unfold http_count, inc_http. cbn [http_counters].
  case_bool_decide as Hk.
  - destruct Hk as (-> & -> & ->).
    change (match err with Some _ => StatusFail | None => StatusSuccess end)
      with (status_of err).
    by rewrite lookup_insert_eq.
  - rewrite lookup_insert_ne; [done|].
    intros ?; simplify_eq. by apply Hk.
Qed.

(** *** C3: a template that fails ends the job *)

(** Looking an event up in a literal block of events. *)
(** An event that is not in a literal block of events. *)
Ltac block_member H :=
  repeat (apply elem_of_cons in H as [H|H]; [done|]); by apply elem_of_nil in H.

Ltac block_lookup H i :=
  repeat first [ by (cbn in H; simplify_eq) | destruct i as [|i] ];
  try (cbn in H; simplify_eq); try congruence.

Lemma loop_run_template_error env req bc s r s' evs :
  loop_run env req bc s r s' evs →
  ∀ i raw err,
    evs !! i = Some (EvExecute raw) →
    utils_Decode_RequestConfig raw = inl err →
    r = Some (None, Some (fmt_Errorf_w "error executing request template" err)) ∧
    length evs = S i.
Proof.
  induction 1 as
    [ req bc s | req bc s w1 HN | req bc s w1 raw0 w2 err0 HN HE HD
      | req bc s w1 raw0 w2 cfg out w3 r s' evs HN HE HD dataSize req' tm pm HDo _ IH
      | req bc s w1 raw0 w2 cfg err0 out w3 r s' evs HN HE HD dataSize req' tm bc' HDo _ IH ];
    intros i raw err Hi Hd.
  - done.
  - block_lookup Hi i.
  - block_lookup Hi i. split; [congruence | done].
  - apply lookup_app_Some in Hi as [Hi | [Hle Hi]].
    + block_lookup Hi i.
    + destruct (IH _ _ _ Hi Hd) as [-> Hlen]. split; [done|].
      rewrite length_app, Hlen. cbn in *. lia.
  - apply lookup_app_Some in Hi as [Hi | [Hle Hi]].
    + block_lookup Hi i.
    + destruct (IH _ _ _ Hi Hd) as [-> Hlen]. split; [done|].
      rewrite length_app, Hlen. cbn in *. lia.
Qed.

(** C3.  When, in any iteration of the loop, the value that the request
    template evaluates to cannot be decoded, [fastHTTPJob] returns at
    once: its result is no data and the decoding error wrapped under
    "error executing request template", and the failing evaluation is the
    last event of the run, so that it is neither retried nor followed by a
    send. *)
Theorem template_failure_ends_job fuel ctx globalConfig args s i raw err :
  events_of (fastHTTPJob fuel ctx globalConfig args s) !! i = Some (EvExecute raw) →
  utils_Decode_RequestConfig raw = inl err →
  result_of (fastHTTPJob fuel ctx globalConfig args s)
    = Some (None, Some (fmt_Errorf_w "error executing request template" err)) ∧
  Unwrap (fmt_Errorf_w "error executing request template" err) = Some err ∧
  length (events_of (fastHTTPJob fuel ctx globalConfig args s)) = S i.
Proof.
  destruct (fastHTTPJob_run fuel ctx globalConfig args s)
    as [ e0 s0 HC | jobConfig clientConfig requestTpl s0 id1 w1 id2 w2 r s' evs HC Hs H1 H2 HL ];
    [done|].
  intros Hi Hd.
  apply lookup_app_Some in Hi as [Hi | [Hle Hi]]; [block_lookup Hi i|].
  unfold Printf_unless_encrypted in *.
  destruct (isInEncryptedContext ctx).
  - cbn [app] in *.
    destruct (loop_run_template_error _ _ _ _ _ _ _ HL _ _ _ Hi Hd) as [-> Hlen].
    repeat split. cbn in *. lia.
  - apply lookup_app_Some in Hi as [Hi | [Hle' Hi]].
    { remember (i - length [EvUUID id1; EvUUID id2]) as j. block_lookup Hi j. }
    destruct (loop_run_template_error _ _ _ _ _ _ _ HL _ _ _ Hi Hd) as [-> Hlen].
    repeat split. cbn in *. lia.
Qed.

(** *** C4: which errors [fastHTTPJob] returns *)

Lemma getHTTPJobConfigs_error ctx args global s err s0 evs :
  getHTTPJobConfigs ctx args global s = (inl err, s0, evs) →
  configuration_error args global err.
Proof.
  unfold getHTTPJobConfigs, configuration_error.
  destruct (ParseConfig args global) as [cause|jobConfig].
  { cbv [ret]. intros ?; simplify_eq. left. by eexists. }
  unfold bind at 1, on_world at 1.
  destruct (templates_ParseAndExecuteMapStruct _ _ _) as [raw w1].
  destruct (utils_Decode_ClientConfig raw) as [cause|clientConfig] eqn:HD.
  { cbv [ret]. intros ?; simplify_eq. right; left. by eexists _, _. }
  unfold bind at 1.
  destruct (_ : M ClientConfig) as [[cc s1] e1].
  destruct (templates_ParseMapStruct (Request jobConfig)) as [cause|tpl] eqn:HP;
    cbv [ret]; intros ?; simplify_eq.
  right; right. by eexists _, _.
Qed.

Lemma loop_run_head env req bc s r s' evs :
  loop_run env req bc s r s' evs →
  (evs = [] ∧ r = None) ∨ ∃ ok, evs !! 0 = Some (EvNext ok).
Proof. destruct 1; [by left | right; by eexists..]. Qed.

Lemma loop_run_result env req bc s r s' evs :
  loop_run env req bc s r s' evs →
  match r with
  | None =>
      last evs = None ∨ (∃ m id n, last evs = Some (EvRecord m id n)) ∨
      (∃ d, last evs = Some (EvSleep d))
  | Some (data, None) => data = None ∧ last evs = Some (EvNext false)
  | Some (data, Some err) =>
      data = None ∧
      ∃ raw cause, last evs = Some (EvExecute raw) ∧
                   utils_Decode_RequestConfig raw = inl cause ∧
                   err = fmt_Errorf_w "error executing request template" cause
  end.
Proof.
  induction 1 as
    [ req bc s | req bc s w1 HN | req bc s w1 raw0 w2 err0 HN HE HD
      | req bc s w1 raw0 w2 cfg out w3 r s' evs HN HE HD dataSize req' tm pm HDo _ IH
      | req bc s w1 raw0 w2 cfg err0 out w3 r s' evs HN HE HD dataSize req' tm bc' HDo _ IH ].
  - by left.
  - done.
  - split; [done|]. by eexists _, _.
  - rewrite last_app. destruct r as [[data [err|]]|].
    + destruct IH as (-> & raw & cause & -> & ?). split; [done|]. by eexists _, _.
    + by destruct IH as (-> & ->).
    + destruct IH as [-> | [(m & id & n & ->) | (d & ->)]]; right;
        [left; by eexists _, _, _ | left; by eexists _, _, _ | right; by eexists].
  - rewrite last_app. destruct r as [[data [err|]]|].
    + destruct IH as (-> & raw & cause & -> & ?). split; [done|]. by eexists _, _.
    + by destruct IH as (-> & ->).
    + destruct IH as [-> | [(m & id & n & ->) | (d & ->)]]; right;
        [right; by eexists | left; by eexists _, _, _ | right; by eexists].
Qed.

Lemma loop_run_failed_send env req bc s r s' evs :
  loop_run env req bc s r s' evs →
  ∀ i req0 err resp,
    evs !! i = Some (EvDo req0 (Some err) resp) →
    (∃ d, evs !! (i + 3) = Some (EvSleep d)) ∧
    ((evs !! (i + 4) = None ∧ r = None) ∨ ∃ ok, evs !! (i + 4) = Some (EvNext ok)).
Proof.
  induction 1 as
    [ req bc s | req bc s w1 HN | req bc s w1 raw0 w2 err0 HN HE HD
      | req bc s w1 raw0 w2 cfg out w3 r s' evs HN HE HD dataSize req' tm pm HDo HL IH
      | req bc s w1 raw0 w2 cfg err0 out w3 r s' evs HN HE HD dataSize req' tm bc' HDo HL IH ];
    intros i req0 err resp Hi.
  - done.
  - block_lookup Hi i.
  - block_lookup Hi i.
  - apply lookup_app_Some in Hi as [Hi | [Hle Hi]]; [block_lookup Hi i|].
    cbn [length] in Hle, Hi.
    destruct (IH _ _ _ _ Hi) as [[d Hd] Hnext].
    rewrite !lookup_app_r by (cbn [length]; lia). cbn [length].
    replace (i + 3 - 7) with (i - 7 + 3) by lia.
    replace (i + 4 - 7) with (i - 7 + 4) by lia.
    split; [by exists d | done].
  - apply lookup_app_Some in Hi as [Hi | [Hle Hi]].
    + block_lookup Hi i. split; [by eexists|].
      change (4 + 4) with 8.
      rewrite lookup_app_r by (cbn [length]; lia). cbn [length Nat.sub].
      destruct (loop_run_head _ _ _ _ _ _ _ HL) as [[-> ->] | [ok Hok]];
        [by left | right; by exists ok].
    + cbn [length] in Hle, Hi.
      destruct (IH _ _ _ _ Hi) as [[d Hd] Hnext].
      rewrite !lookup_app_r by (cbn [length]; lia). cbn [length].
      replace (i + 3 - 8) with (i - 8 + 3) by lia.
      replace (i + 4 - 8) with (i - 8 + 4) by lia.
      split; [by exists d | done].
Qed.

(** C4.  [fastHTTPJob] returns an error only for a failure of the
    configuration: the error of [getHTTPJobConfigs] (job configuration,
    client configuration or request template refused), or the error of
    decoding what the request template evaluated to, which then is the
    last event of the run.  It returns (nil, nil) exactly when the last
    thing that happened is [Next] denying another iteration.
    data is nil in every case.  A send that fails is never the end of the
    run: the sleep follows it, and after the sleep either the loop is
    still running or [Next] is called again. *)
Theorem only_configuration_errors_are_returned fuel ctx globalConfig args s :
  let run := fastHTTPJob fuel ctx globalConfig args s in
  (∀ data err,
     result_of run = Some (data, Some err) →
     data = None ∧
     (configuration_error args globalConfig err ∨
      ∃ raw cause, last (events_of run) = Some (EvExecute raw) ∧
                   utils_Decode_RequestConfig raw = inl cause ∧
                   err = fmt_Errorf_w "error executing request template" cause)) ∧
  (∀ data, result_of run = Some (data, None) → data = None) ∧
  (last (events_of run) = Some (EvNext false) ↔ result_of run = Some (None, None)) ∧
  (∀ i req err resp,
     events_of run !! i = Some (EvDo req (Some err) resp) →
     (∃ d, events_of run !! (i + 3) = Some (EvSleep d)) ∧
     ((events_of run !! (i + 4) = None ∧ result_of run = None) ∨
      ∃ ok, events_of run !! (i + 4) = Some (EvNext ok))).
Proof.
  intros run. subst run.
  destruct (fastHTTPJob_run fuel ctx globalConfig args s)
    as [ e0 s0 HC | jobConfig clientConfig requestTpl s0 id1 w1 id2 w2 r s' evs HC Hs H1 H2 HL ].
  { repeat split; try done.
    - by simplify_eq.
    - intros; simplify_eq. left. by eapply getHTTPJobConfigs_error. }
  pose proof (loop_run_result _ _ _ _ _ _ _ HL) as HR.
  set (pre := [EvUUID id1; EvUUID id2]
              ++ Printf_unless_encrypted ctx "Attacking %v" (PValue (Request jobConfig !! "path"))).
  assert (∀ e, last evs = Some e → last (pre ++ evs) = Some e) as Hlast.
  { intros e He. by rewrite last_app, He. }
  assert (∀ ok, last pre ≠ Some (EvNext ok)) as Hpre.
  { intros ok. subst pre. unfold Printf_unless_encrypted.
    by destruct (isInEncryptedContext ctx). }
  rewrite (assoc_L (++)). fold pre.
  repeat split.
  - intros; simplify_eq. by destruct HR.
  - intros; simplify_eq. right. destruct HR as (_ & raw & cause & ? & ? & ?).
    exists raw, cause. auto.
  - intros; simplify_eq. by destruct HR.
  - rewrite last_app. intros Hl. destruct r as [[data [err|]]|].
    + destruct HR as (_ & raw & cause & HR & _). rewrite HR in Hl. done.
    + by destruct HR as [-> _].
    + destruct HR as [HR | [(m & id & n & HR) | (d & HR)]]; rewrite HR in Hl;
        [by apply Hpre in Hl | done | done].
  - intros; simplify_eq. destruct HR as [_ HR]. by apply Hlast.
  - apply lookup_app_Some in H as [Hi | [Hle Hi]].
    { subst pre. unfold Printf_unless_encrypted in Hi.
      destruct (isInEncryptedContext ctx); block_lookup Hi i. }
    destruct (loop_run_failed_send _ _ _ _ _ _ _ HL _ _ _ _ Hi) as [[d Hd] _].
    exists d. rewrite lookup_app_r by lia.
    by replace (i + 3 - length pre) with (i - length pre + 3) by lia.
  - apply lookup_app_Some in H as [Hi | [Hle Hi]].
    { subst pre. unfold Printf_unless_encrypted in Hi.
      destruct (isInEncryptedContext ctx); block_lookup Hi i. }
    destruct (loop_run_failed_send _ _ _ _ _ _ _ HL _ _ _ _ Hi) as [_ Hnext].
    rewrite lookup_app_r by lia.
    by replace (i + 4 - length pre) with (i - length pre + 4) by lia.
Qed.

(** *** C6: the totals of the two streams *)

Lemma uint64_range n : (0 ≤ uint64 n < 2 ^ 64)%Z.
Proof. unfold uint64. apply Z.mod_pos_bound. lia. Qed.

Lemma uint64_small n : (0 ≤ n < 2 ^ 64)%Z → uint64 n = n.
Proof. unfold uint64. intros. by apply Z.mod_small. Qed.

Lemma kind_total_add_stream m' m id n ms :
  kind_total m' (add_stream m id n ms) =
  (kind_total m' ms + if bool_decide (m = m') then n else 0)%Z.
Proof.
  unfold kind_total, add_stream, stream_total. cbn [streams].
  set (f := λ (k : Metric * string) (v acc : Z),
              if bool_decide (k.1 = m') then (v + acc)%Z else acc).
  assert (∀ j1 j2 z1 z2 y, f j1 z1 (f j2 z2 y) = f j2 z2 (f j1 z1 y)) as Hcomm.
  { intros. unfold f. repeat case_bool_decide; lia. }
  destruct (streams ms !! (m, id)) as [v|] eqn:Hv; cbn [default].
  - rewrite <-insert_delete_eq.
    rewrite map_fold_insert_L; [|by intros; apply Hcomm|by apply lookup_delete_eq].
    rewrite (map_fold_delete_L f 0%Z (m, id) v (streams ms)); [|by intros; apply Hcomm|done].
    unfold f at 1 3. cbn [fst]. change (Datatypes.id v) with v. case_bool_decide; lia.
  - rewrite map_fold_insert_L; [|by intros; apply Hcomm|done].
    unfold f at 1. cbn [fst]. case_bool_decide; lia.
Qed.

Lemma kind_total_inc_http m host method st ms :
  kind_total m (inc_http host method st ms) = kind_total m ms.
Proof. done. Qed.

Lemma sum_recorded_succeeded_le l : (0 ≤ sum_recorded (succeeded l) ≤ sum_recorded l)%Z.
Proof.
  unfold sum_recorded, succeeded.
  induction l as [|[sz ok] l IH]; cbn; [lia|].
  pose proof (uint64_range sz). destruct ok; cbn; lia.
Qed.

Lemma sum_recorded_sizes l :
  Forall (λ x, (0 ≤ x.1 < 2 ^ 64)%Z) l →
  sum_recorded l = sum_sizes l ∧ sum_recorded (succeeded l) = sum_sizes (succeeded l).
Proof.
  unfold sum_recorded, sum_sizes, succeeded.
  induction 1 as [|[sz ok] l Hx _ [IH1 IH2]]; [done|].
  cbn in Hx. cbn. destruct ok; cbn; rewrite ?uint64_small by done; split; congruence.
Qed.

Lemma loop_run_totals env req bc s r s' evs :
  env_streams env →
  loop_run env req bc s r s' evs →
  ∀ cur,
    kind_total Traffic (sink s') =
      (kind_total Traffic (sink s) + sum_recorded (exchanges_from cur evs))%Z ∧
    kind_total ProcessedTraffic (sink s') =
      (kind_total ProcessedTraffic (sink s)
       + sum_recorded (succeeded (exchanges_from cur evs)))%Z.
Proof.
  intros [Ht Hp]. induction 1 as
    [ req bc s | req bc s w1 HN | req bc s w1 raw0 w2 err0 HN HE HD
      | req bc s w1 raw0 w2 cfg out w3 r s' evs HN HE HD dataSize req' tm pm HDo HL IH
      | req bc s w1 raw0 w2 cfg err0 out w3 r s' evs HN HE HD dataSize req' tm bc' HDo HL IH ];
    intros cur; cbn [world sink]; unfold sum_recorded, succeeded in *.
  - cbn. lia.
  - cbn. lia.
  - cbn. lia.
  - destruct (IH dataSize) as [IH1 IH2]. cbn [sink] in IH1, IH2.
    rewrite IH1, IH2. subst tm pm. rewrite Ht, Hp.
    rewrite !kind_total_add_stream, !kind_total_inc_http, !kind_total_add_stream.
    cbn. repeat case_bool_decide; try done; lia.
  - destruct (IH dataSize) as [IH1 IH2]. cbn [sink] in IH1, IH2.
    rewrite IH1, IH2. subst tm. rewrite Ht.
    rewrite !kind_total_inc_http, !kind_total_add_stream.
    cbn. repeat case_bool_decide; try done; lia.
Qed.

(** C6.  Take any observation of a run of [fastHTTPJob]; it ends between
    two iterations or at the return.  Let [done] be the exchanges made so
    far, one per completed iteration, each with the payload size that
    [InitRequest] returned in that iteration and the outcome of its send.
    The attempted-traffic total has grown by the sum of the recorded sizes
    [uint64 size] of all of them, whatever the outcomes; the
    delivered-traffic total has grown by the sum over those whose send
    returned nil; the latter never exceeds the former.  For payload sizes
    that are byte counts, between 0 and 2^64, the recorded size is the
    size itself. *)
Theorem traffic_totals fuel ctx globalConfig args s :
  let run := fastHTTPJob fuel ctx globalConfig args s in
  let done := exchanges (events_of run) in
  let attempted :=
    (kind_total Traffic (sink (state_of run)) - kind_total Traffic (sink s))%Z in
  let delivered :=
    (kind_total ProcessedTraffic (sink (state_of run))
     - kind_total ProcessedTraffic (sink s))%Z in
  attempted = sum_recorded done ∧
  delivered = sum_recorded (succeeded done) ∧
  (delivered ≤ attempted)%Z ∧
  (Forall (λ x, (0 ≤ x.1 < 2 ^ 64)%Z) done →
   attempted = sum_sizes done ∧ delivered = sum_sizes (succeeded done)).
Proof.
  intros run done attempted delivered.
  assert (attempted = sum_recorded done ∧ delivered = sum_recorded (succeeded done))
    as [Ha Hd].
  { subst attempted delivered done run.
    destruct (fastHTTPJob_run fuel ctx globalConfig args s)
      as [ e0 s0 HC | jobConfig clientConfig requestTpl s0 id1 w1 id2 w2 r s' evs HC Hs H1 H2 HL ].
    { apply getHTTPJobConfigs_eq in HC as [_ ->]. cbn. lia. }
    assert (exchanges ([EvUUID id1; EvUUID id2]
                       ++ Printf_unless_encrypted ctx "Attacking %v"
                            (PValue (Request jobConfig !! "path")) ++ evs)
            = exchanges_from 0 evs) as ->.
    { unfold exchanges, Printf_unless_encrypted. by destruct (isInEncryptedContext ctx). }
    pose proof (λ E, loop_run_totals _ _ _ _ _ _ _ E HL 0%Z) as T.
    destruct T as [T1 T2]; [done|].
    cbn [sink] in T1, T2. lia. }
  repeat split; try done.
  - rewrite Ha, Hd. apply sum_recorded_succeeded_le.
  - rewrite Ha. by apply sum_recorded_sizes.
  - rewrite Hd. by apply sum_recorded_sizes.
Qed.

(** *** The cookie loader, case by case *)

Lemma cookieLoaderFunc_unparsed cks key value s err :
  Cookie_ParseBytes value = inl err →
  cookieLoaderFunc cks key value s = (cks, s, []).
Proof. unfold cookieLoaderFunc. by intros ->. Qed.

Lemma cookieLoaderFunc_unlimited cks key value s c :
  Cookie_ParseBytes value = inr c →
  Cookie_Expire c = fasthttp_CookieExpireUnlimited →
  cookieLoaderFunc cks key value s = (<[key := Cookie_Value c]> cks, s, []).
Proof.
  unfold cookieLoaderFunc. intros -> Hu. unfold bind at 1.
  by rewrite bool_decide_eq_false_2 by (by intros []).
Qed.

Lemma cookieLoaderFunc_dated cks key value s c :
  Cookie_ParseBytes value = inr c →
  Cookie_Expire c ≠ fasthttp_CookieExpireUnlimited →
  cookieLoaderFunc cks key value s =
  let '(now, w) := time_Now (world s) in
  if (Cookie_Expire c <? now)%Z
  then (cks, {| world := w; sink := sink s |},
        [EvNow now; EvDebug "cookie from the request expired" [zap_ByteString "cookie" key]])
  else (<[key := Cookie_Value c]> cks, {| world := w; sink := sink s |}, [EvNow now]).
Proof.
  unfold cookieLoaderFunc. intros -> Hu. unfold bind at 1.
  rewrite bool_decide_eq_true_2 by done.
  unfold bind at 1, clock_Now at 1, on_world at 1.
  destruct (time_Now (world s)) as [now w]. cbv [ret]. cbn [world sink].
  by destruct (Cookie_Expire c <? now)%Z.
Qed.

(** The entry of a key other than the one visited is left alone. *)
Lemma cookieLoaderFunc_other cks key value s cks' s' evs k :
  cookieLoaderFunc cks key value s = (cks', s', evs) →
  k ≠ key → cks' !! k = cks !! k.
Proof.
  intros H Hk. destruct (Cookie_ParseBytes value) as [err|c] eqn:HP.
  { rewrite (cookieLoaderFunc_unparsed _ _ _ _ _ HP) in H. by simplify_eq. }
  destruct (decide (Cookie_Expire c = fasthttp_CookieExpireUnlimited)) as [Hu|Hu].
  { rewrite (cookieLoaderFunc_unlimited _ _ _ _ _ HP Hu) in H. simplify_eq.
    by rewrite lookup_insert_ne. }
  rewrite (cookieLoaderFunc_dated _ _ _ _ _ HP Hu) in H.
  destruct (time_Now (world s)) as [now w].
  destruct (Cookie_Expire c <? now)%Z; simplify_eq; [done|].
  by rewrite lookup_insert_ne.
Qed.

(** An entry that the loader writes is the value of a cookie that parsed
    and that was unlimited or not before the clock reading of the visit. *)
Lemma cookieLoaderFunc_written cks key value s cks' s' evs k v :
  cookieLoaderFunc cks key value s = (cks', s', evs) →
  cks' !! k = Some v →
  cks !! k = Some v ∨
  k = key ∧
  ∃ c, Cookie_ParseBytes value = inr c ∧ v = Cookie_Value c ∧
       (Cookie_Expire c = fasthttp_CookieExpireUnlimited ∨
        ∃ now, EvNow now ∈ evs ∧ (now ≤ Cookie_Expire c)%Z).
Proof.
  intros H Hv. destruct (Cookie_ParseBytes value) as [err|c] eqn:HP.
  { rewrite (cookieLoaderFunc_unparsed _ _ _ _ _ HP) in H. simplify_eq. by left. }
  destruct (decide (Cookie_Expire c = fasthttp_CookieExpireUnlimited)) as [Hu|Hu].
  { rewrite (cookieLoaderFunc_unlimited _ _ _ _ _ HP Hu) in H. simplify_eq.
    destruct (decide (k = key)) as [->|Hk].
    - rewrite lookup_insert_eq in Hv. simplify_eq. right. split; [done|].
      exists c. auto.
    - rewrite lookup_insert_ne in Hv by done. by left. }
  rewrite (cookieLoaderFunc_dated _ _ _ _ _ HP Hu) in H.
  destruct (time_Now (world s)) as [now w].
  destruct (Cookie_Expire c <? now)%Z eqn:Hlt; simplify_eq; [by left|].
  destruct (decide (k = key)) as [->|Hk].
  - rewrite lookup_insert_eq in Hv. simplify_eq. right. split; [done|].
    exists c. repeat split; try done. right. exists now. split; [by left | lia].
  - rewrite lookup_insert_ne in Hv by done. by left.
Qed.

Lemma visitM_cookie_untouched kvs cks s cks' s' evs k :
  visitM cookieLoaderFunc kvs cks s = (cks', s', evs) →
  k ∉ kvs.*1 → cks' !! k = cks !! k.
Proof.
  revert cks s cks' s' evs.
  induction kvs as [|[key value] kvs IH]; intros cks s cks' s' evs.
  { cbv [visitM ret]. by intros ?; simplify_eq. }
  cbn [visitM]. unfold bind at 1.
  destruct (cookieLoaderFunc cks key value s) as [[cks1 s1] e1] eqn:H1.
  destruct (visitM cookieLoaderFunc kvs cks1 s1) as [[cks2 s2] e2] eqn:H2.
  intros ? Hk; simplify_eq. cbn in Hk. apply not_elem_of_cons in Hk as [Hk1 Hk2].
  rewrite (IH _ _ _ _ _ H2 Hk2). by eapply cookieLoaderFunc_other.
Qed.

Lemma visitM_cookie_written kvs cks s cks' s' evs k v :
  visitM cookieLoaderFunc kvs cks s = (cks', s', evs) →
  cks' !! k = Some v →
  cks !! k = Some v ∨
  ∃ raw c, (k, raw) ∈ kvs ∧ Cookie_ParseBytes raw = inr c ∧ v = Cookie_Value c ∧
           (Cookie_Expire c = fasthttp_CookieExpireUnlimited ∨
            ∃ now, EvNow now ∈ evs ∧ (now ≤ Cookie_Expire c)%Z).
Proof.
  revert cks s cks' s' evs.
  induction kvs as [|[key value] kvs IH]; intros cks s cks' s' evs.
  { cbv [visitM ret]. intros ? ?; simplify_eq. by left. }
  cbn [visitM]. unfold bind at 1.
  destruct (cookieLoaderFunc cks key value s) as [[cks1 s1] e1] eqn:H1.
  destruct (visitM cookieLoaderFunc kvs cks1 s1) as [[cks2 s2] e2] eqn:H2.
  intros ? Hv; simplify_eq.
  destruct (IH _ _ _ _ _ H2 Hv) as [Hv1 | (raw & c & Hin & HP & -> & Hc)].
  - destruct (cookieLoaderFunc_written _ _ _ _ _ _ _ _ _ H1 Hv1)
      as [? | (-> & c & HP & -> & Hc)]; [by left|].
    right. exists value, c. repeat split; try done; [by left|].
    destruct Hc as [?|(now & Hnow & ?)]; [by left|].
    right. exists now. split; [|done]. apply elem_of_app. by left.
  - right. exists raw, c. repeat split; try done; [by right|].
    destruct Hc as [?|(now & Hnow & ?)]; [by left|].
    right. exists now. split; [|done]. apply elem_of_app. by right.
Qed.

(** With one cookie per name, a cookie that expired before every clock
    reading of the visit leaves no entry. *)
Lemma visitM_cookie_expired kvs cks s cks' s' evs k raw c :
  visitM cookieLoaderFunc kvs cks s = (cks', s', evs) →
  NoDup kvs.*1 →
  (k, raw) ∈ kvs →
  Cookie_ParseBytes raw = inr c →
  Cookie_Expire c ≠ fasthttp_CookieExpireUnlimited →
  (∀ now, EvNow now ∈ evs → (Cookie_Expire c < now)%Z) →
  cks' !! k = cks !! k.
Proof.
  revert cks s cks' s' evs.
  induction kvs as [|[key value] kvs IH]; intros cks s cks' s' evs.
  { intros _ _ Hin. by apply elem_of_nil in Hin. }
  cbn [visitM]. unfold bind at 1.
  destruct (cookieLoaderFunc cks key value s) as [[cks1 s1] e1] eqn:H1.
  destruct (visitM cookieLoaderFunc kvs cks1 s1) as [[cks2 s2] e2] eqn:H2.
  intros ? Hnd Hin HP Hu Hnow; simplify_eq.
  cbn in Hnd. apply NoDup_cons in Hnd as [Hkey Hnd].
  apply elem_of_cons in Hin as [Heq|Hin].
  - simplify_eq. rewrite (visitM_cookie_untouched _ _ _ _ _ _ _ H2 Hkey).
    rewrite (cookieLoaderFunc_dated _ _ _ _ _ HP Hu) in H1.
    destruct (time_Now (world s)) as [now w].
    destruct (Cookie_Expire c <? now)%Z eqn:Hlt; simplify_eq; [done|].
    assert (Cookie_Expire c < now)%Z by (apply Hnow; by left). lia.
  - assert (k ≠ key) as Hk.
    { intros ->. apply Hkey. apply list_elem_of_fmap. by exists (key, raw). }
    rewrite (IH _ _ _ _ _ H2 Hnd Hin HP Hu).
    + by eapply cookieLoaderFunc_other.
    + intros now ?. apply Hnow. apply elem_of_app. by right.
Qed.

Lemma visit_header_lookup kvs hs k :
  visit headerLoaderFunc kvs hs !! k = from_option Some (hs !! k) (last_binding k kvs).
Proof.
  unfold visit, last_binding.
  induction kvs as [|[key value] kvs IH] using rev_ind; [done|].
  rewrite !foldl_snoc. cbn [fst snd]. unfold headerLoaderFunc at 1.
  case_bool_decide as Hk.
  - subst key. by rewrite lookup_insert_eq.
  - by rewrite lookup_insert_ne.
Qed.

(** *** The single-shot variant *)

Lemma cookie_events_no_Do evs :
  Forall (λ e, is_cookie_event e = true) evs → List.filter is_Do evs = [].
Proof.
  induction 1 as [|e evs He _ IH]; [done|].
  cbn. rewrite IH. by destruct e.
Qed.

(** When the single-shot variant returns a snapshot: the one call of the
    client, and the visit of the cookies that built the cookie map. *)
Lemma singleRequestJob_snapshot ctx globalConfig args s res :
  result_of (singleRequestJob ctx globalConfig args s) = (Some res, None) →
  ∃ req sent s4 s5 evc,
    List.filter is_Do (events_of (singleRequestJob ctx globalConfig args s))
      = [EvDo req (error_ res) sent] ∧
    body (response res) = Response_Body (default fasthttp_AcquireResponse sent) ∧
    status_code (response res) = Response_StatusCode (default fasthttp_AcquireResponse sent) ∧
    headers (response res)
      = visit headerLoaderFunc (Response_VisitAll (default fasthttp_AcquireResponse sent)) ∅ ∧
    visitM cookieLoaderFunc
      (Response_VisitAllCookie (default fasthttp_AcquireResponse sent)) ∅ s4
      = (cookies (response res), s5, evc) ∧
    (∀ now, EvNow now ∈ events_of (singleRequestJob ctx globalConfig args s)
            ↔ EvNow now ∈ evc).
Proof.
  destruct (singleRequestJob_run ctx globalConfig args s)
    as [ | | jobConfig clientConfig requestTpl s0 raw w1 cfg id1 w2 err sent w3
             w4 sink4 evd cks s5 evc HC Hs HE HD dataSize req H1 HDo sink3 Hd resp HV ];
    [done..|].
  intros ?; simplify_eq. cbn [response error_ body status_code headers cookies].
  exists req, sent, {| world := w4; sink := sink4 |}, s5, evc.
  pose proof (visitM_cookie_events _ _ _ _ _ _ HV) as [Hc _].
  assert (evd = [] ∨ ∃ id2 n, evd = [EvUUID id2; EvRecord ProcessedTraffic id2 n]) as Hevd.
  { destruct err; [left; by destruct Hd as (_ & _ & ->)|].
    right. destruct Hd as (id2 & _ & _ & ->). by eexists _, _. }
  repeat split; try done.
  - rewrite !List.filter_app, (cookie_events_no_Do evc Hc).
    unfold Printf_unless_encrypted.
    destruct (isInEncryptedContext ctx), Hevd as [->|(id2 & n & ->)]; done.
  - rewrite !elem_of_app. unfold Printf_unless_encrypted.
    intros [Hin|[Hin|[Hin|[Hin|Hin]]]]; try done.
    + block_member Hin.
    + destruct (isInEncryptedContext ctx); block_member Hin.
    + block_member Hin.
    + destruct Hevd as [->|(id2 & n & ->)]; block_member Hin.
  - rewrite !elem_of_app. auto.
Qed.

Lemma singleRequestJob_returns ctx globalConfig args s jobConfig clientConfig requestTpl cfg :
  let configured := getHTTPJobConfigs (context_WithCancel ctx) args globalConfig s in
  result_of configured = inr (jobConfig, clientConfig, requestTpl) →
  utils_Decode_RequestConfig
    (MapStruct_Execute requestTpl (context_WithCancel ctx) (world (state_of configured))).1
    = inr cfg →
  ∃ res, result_of (singleRequestJob ctx globalConfig args s) = (Some res, None).
Proof.
  unfold context_WithCancel. cbn zeta.
  destruct (singleRequestJob_run ctx globalConfig args s)
    as [ err s0 HC | jobConfig' clientConfig' requestTpl' s0 raw w1 err HC HE HD
       | jobConfig' clientConfig' requestTpl' s0 raw w1 cfg' id1 w2 err sent w3
             w4 sink4 evd cks s5 evc HC Hs HE HD dataSize req H1 HDo sink3 Hd resp HV ];
    rewrite HC; unfold result_of, state_of; cbn [fst snd]; intros ? Hdec; simplify_eq.
  - rewrite HE in Hdec. cbn in Hdec. congruence.
  - by eexists.
Qed.

(** C7.  When [getHTTPJobConfigs] accepts the configuration and the value
    of the request template decodes, [singleRequestJob] returns a result
    map and a nil error, whatever the transport did: the client is called
    exactly once, the error of that call, nil or not, is the entry "error"
    of the map, and the entry "response" holds the body, the status code,
    the headers and the cookies read from the response object of that
    call. *)
Theorem single_shot_embeds_transport_error
    ctx globalConfig args s jobConfig clientConfig requestTpl cfg :
  let configured := getHTTPJobConfigs (context_WithCancel ctx) args globalConfig s in
  let run := singleRequestJob ctx globalConfig args s in
  result_of configured = inr (jobConfig, clientConfig, requestTpl) →
  utils_Decode_RequestConfig
    (MapStruct_Execute requestTpl (context_WithCancel ctx) (world (state_of configured))).1
    = inr cfg →
  ∃ res req sent,
    result_of run = (Some res, None) ∧
    List.filter is_Do (events_of run) = [EvDo req (error_ res) sent] ∧
    let resp := default fasthttp_AcquireResponse sent in
    body (response res) = Response_Body resp ∧
    status_code (response res) = Response_StatusCode resp ∧
    headers (response res) = visit headerLoaderFunc (Response_VisitAll resp) ∅ ∧
    (∀ k, is_Some (cookies (response res) !! k) → k ∈ (Response_VisitAllCookie resp).*1).
Proof.
  intros configured run Hcfg Hdec.
  destruct (singleRequestJob_returns _ _ _ _ _ _ _ _ Hcfg Hdec) as [res Hres].
  destruct (singleRequestJob_snapshot _ _ _ _ _ Hres)
    as (req & sent & s4 & s5 & evc & HDo & Hb & Hst & Hh & HV & _).
  exists res, req, sent. repeat split; try done.
  intros k [v Hv].
  destruct (visitM_cookie_written _ _ _ _ _ _ _ _ HV Hv) as [?|(raw & c & Hin & _)]; [done|].
  apply list_elem_of_fmap. by exists (k, raw).
Qed.

(** C8.  The snapshot that [singleRequestJob] returns has the body and the
    status code of the response object that the client filled; its header
    map gives for every key the value that the response gave last for
    that key; every entry of its cookie map is the value of a response
    cookie of that name which parsed and either has no expiry
    ([CookieExpireUnlimited]) or was not before the clock reading of its
    visit; and, the response holding one cookie per name, a cookie with an
    expiry earlier than every clock reading taken while the snapshot was
    built has no entry in the map. *)
Theorem snapshot_drops_expired_cookies
    ctx globalConfig args s jobConfig clientConfig requestTpl cfg :
  let configured := getHTTPJobConfigs (context_WithCancel ctx) args globalConfig s in
  let run := singleRequestJob ctx globalConfig args s in
  result_of configured = inr (jobConfig, clientConfig, requestTpl) →
  utils_Decode_RequestConfig
    (MapStruct_Execute requestTpl (context_WithCancel ctx) (world (state_of configured))).1
    = inr cfg →
  ∃ res req sent,
    result_of run = (Some res, None) ∧
    List.filter is_Do (events_of run) = [EvDo req (error_ res) sent] ∧
    let resp := default fasthttp_AcquireResponse sent in
    body (response res) = Response_Body resp ∧
    status_code (response res) = Response_StatusCode resp ∧
    (∀ k, headers (response res) !! k = last_binding k (Response_VisitAll resp)) ∧
    (∀ k v,
       cookies (response res) !! k = Some v →
       ∃ raw c, (k, raw) ∈ Response_VisitAllCookie resp ∧
                Cookie_ParseBytes raw = inr c ∧ v = Cookie_Value c ∧
                (Cookie_Expire c = fasthttp_CookieExpireUnlimited ∨
                 ∃ now, EvNow now ∈ events_of run ∧ (now ≤ Cookie_Expire c)%Z)) ∧
    (NoDup (Response_VisitAllCookie resp).*1 →
     ∀ k raw c,
       (k, raw) ∈ Response_VisitAllCookie resp →
       Cookie_ParseBytes raw = inr c →
       Cookie_Expire c ≠ fasthttp_CookieExpireUnlimited →
       (∀ now, EvNow now ∈ events_of run → (Cookie_Expire c < now)%Z) →
       cookies (response res) !! k = None).
Proof.
  intros configured run Hcfg Hdec.
  destruct (singleRequestJob_returns _ _ _ _ _ _ _ _ Hcfg Hdec) as [res Hres].
  destruct (singleRequestJob_snapshot _ _ _ _ _ Hres)
    as (req & sent & s4 & s5 & evc & HDo & Hb & Hst & Hh & HV & Hnow).
  exists res, req, sent. repeat split; try done.
  - intros k. rewrite Hh, visit_header_lookup, lookup_empty.
    by destruct (last_binding k _).
  - intros k v Hv.
    destruct (visitM_cookie_written _ _ _ _ _ _ _ _ HV Hv)
      as [?|(raw & c & Hin & HP & -> & Hc)]; [done|].
    exists raw, c. repeat split; try done.
    destruct Hc as [?|(now & Hin' & ?)]; [by left|].
    right. exists now. split; [by apply Hnow | done].
  - intros Hnd k raw c Hin HP Hu Hbefore.
    rewrite (visitM_cookie_expired _ _ _ _ _ _ _ _ _ HV Hnd Hin HP Hu); [done|].
    intros now ?. apply Hbefore. by apply Hnow.
Qed.

(** C10.  A cookie whose raw value does not parse leaves the cookie map,
    the state and the log as they were, and [cookieLoaderFunc] has no
    error to report; a cookie that parses and whose expiry is
    [CookieExpireUnlimited] is stored under its name, and the clock is not
    read for it; and the only errors that [singleRequestJob] returns are
    those of the configuration and of decoding the request template, both
    raised before any cookie is looked at. *)
Theorem unparseable_cookie_is_skipped :
  (∀ cks key value s err,
     Cookie_ParseBytes value = inl err →
     cookieLoaderFunc cks key value s = (cks, s, [])) ∧
  (∀ cks key value s c,
     Cookie_ParseBytes value = inr c →
     Cookie_Expire c = fasthttp_CookieExpireUnlimited →
     cookieLoaderFunc cks key value s = (<[key := Cookie_Value c]> cks, s, []) ∧
     result_of (cookieLoaderFunc cks key value s) !! key = Some (Cookie_Value c)) ∧
  (∀ ctx globalConfig args s data err,
     result_of (singleRequestJob ctx globalConfig args s) = (data, Some err) →
     data = None ∧
     (configuration_error args globalConfig err ∨
      ∃ raw, events_of (singleRequestJob ctx globalConfig args s) = [EvExecute raw] ∧
             utils_Decode_RequestConfig raw = inl err)).
Proof.
  split; [|split].
  - intros cks key value s err HP. by eapply cookieLoaderFunc_unparsed.
  - intros cks key value s c HP Hu.
    rewrite (cookieLoaderFunc_unlimited _ _ _ _ _ HP Hu).
    split; [done | apply lookup_insert_eq].
  - intros ctx globalConfig args s data err.
    destruct (singleRequestJob_run ctx globalConfig args s)
      as [ e0 s0 HC | jobConfig' clientConfig' requestTpl' s0 raw w1 e0 HC HE HD | ];
      intros ?; simplify_eq; (split; [done|]).
    + left. by eapply getHTTPJobConfigs_error.
    + right. by exists raw.
Qed.

(** *** Counting the events of a run *)

Lemma count_app p e1 e2 : count p (e1 ++ e2) = count p e1 + count p e2.
Proof. unfold count. by rewrite List.filter_app, length_app. Qed.

Lemma count_none p evs : Forall (λ e, p e = false) evs → count p evs = 0.
Proof.
  unfold count. induction 1 as [|e evs He _ IH]; [done|]. cbn. by rewrite He.
Qed.

(** The events of the single-shot variant fall in two parts: those up to
    the accounting of the exchange, and those of the visit of the
    cookies. *)
Lemma singleRequestJob_cookie_visit ctx globalConfig args s res :
  result_of (singleRequestJob ctx globalConfig args s) = (Some res, None) →
  ∃ req sent s4 s5 pre evc,
    events_of (singleRequestJob ctx globalConfig args s) = pre ++ evc ∧
    Forall (λ e, is_Now e = false) pre ∧ Forall (λ e, is_Debug e = false) pre ∧
    List.filter is_Do (events_of (singleRequestJob ctx globalConfig args s))
      = [EvDo req (error_ res) sent] ∧
    visitM cookieLoaderFunc
      (Response_VisitAllCookie (default fasthttp_AcquireResponse sent)) ∅ s4
      = (cookies (response res), s5, evc).
Proof.
  intros Hres.
  destruct (singleRequestJob_snapshot _ _ _ _ _ Hres)
    as (req & sent & s4' & s5' & evc' & HDo & _).
  revert Hres HDo.
  destruct (singleRequestJob_run ctx globalConfig args s)
    as [ | | jobConfig clientConfig requestTpl s0 raw w1 cfg id1 w2 err sent' w3
             w4 sink4 evd cks s5 evc HC Hs HE HD dataSize req' H1 HDo' sink3 Hd resp HV ];
    [done..|].
  intros ? HDo; simplify_eq. cbn [response error_ cookies] in *.
  assert (evd = [] ∨ ∃ id2 n, evd = [EvUUID id2; EvRecord ProcessedTraffic id2 n]) as Hevd.
  { destruct err; [left; by destruct Hd as (_ & _ & ->)|].
    right. destruct Hd as (id2 & _ & _ & ->). by eexists _, _. }
  assert (sent' = sent) as ->.
  { pose proof (visitM_cookie_events _ _ _ _ _ _ HV) as [Hc _].
    rewrite !List.filter_app, (cookie_events_no_Do evc Hc) in HDo.
    unfold Printf_unless_encrypted in HDo.
    destruct (isInEncryptedContext ctx), Hevd as [->|(id2 & n & ->)];
      cbn in HDo; by simplify_eq. }
  exists req, sent, {| world := w4; sink := sink4 |}, s5.
  eexists _, evc. split; [by rewrite !(assoc_L (++))|].
  unfold Printf_unless_encrypted.
  repeat split; try done;
    destruct (isInEncryptedContext ctx), Hevd as [->|(id2 & n & ->)];
    by repeat constructor.
Qed.

(** *** C5: what is logged *)

Lemma loop_run_logs env req bc s r s' evs :
  loop_run env req bc s r s' evs →
  Forall (λ e, is_Printf e = false) evs ∧
  ∀ msg fields,
    EvDebug msg fields ∈ evs →
    msg = "error sending request" ∧
    ∃ err, fields = [zap_Error err; zap_Any "args" (env_args env)].
Proof.
  induction 1 as
    [ req bc s | req bc s w1 HN | req bc s w1 raw0 w2 err0 HN HE HD
      | req bc s w1 raw0 w2 cfg out w3 r s' evs HN HE HD dataSize req' tm pm HDo HL [IHp IHd]
      | req bc s w1 raw0 w2 cfg err0 out w3 r s' evs HN HE HD dataSize req' tm bc' HDo HL [IHp IHd] ].
  - split; [done|]. intros msg fields Hin. block_member Hin.
  - split; [by repeat constructor|]. intros msg fields Hin. block_member Hin.
  - split; [by repeat constructor|]. intros msg fields Hin. block_member Hin.
  - split; [apply Forall_app; split; [by repeat constructor | done]|].
    intros msg fields [Hin|Hin]%elem_of_app; [block_member Hin | by apply IHd].
  - split; [apply Forall_app; split; [by repeat constructor | done]|].
    intros msg fields [Hin|Hin]%elem_of_app; [|by apply IHd].
    repeat (apply elem_of_cons in Hin as [Hin|Hin]; [try done|]);
      [|by apply elem_of_nil in Hin].
    simplify_eq. split; [done | by exists err0].
Qed.

Lemma fastHTTPJob_logs fuel ctx globalConfig args s :
  (isInEncryptedContext ctx = true →
   Forall (λ e, is_Printf e = false) (events_of (fastHTTPJob fuel ctx globalConfig args s))) ∧
  (∀ msg fields,
     EvDebug msg fields ∈ events_of (fastHTTPJob fuel ctx globalConfig args s) →
     msg = "error sending request" ∧ ∃ err, fields = [zap_Error err; zap_Any "args" args]).
Proof.
  destruct (fastHTTPJob_run fuel ctx globalConfig args s)
    as [ e0 s0 HC | jobConfig clientConfig requestTpl s0 id1 w1 id2 w2 r s' evs HC Hs H1 H2 HL ].
  { split; [done|]. intros msg fields Hin. block_member Hin. }
  pose proof (loop_run_logs _ _ _ _ _ _ _ HL) as [Hp Hdbg]. cbn [env_args] in Hdbg.
  unfold Printf_unless_encrypted. split.
  - intros ->. by repeat constructor.
  - intros msg fields [Hin|Hin]%elem_of_app; [block_member Hin|].
    apply elem_of_app in Hin as [Hin|Hin]; [|by apply Hdbg].
    destruct (isInEncryptedContext ctx); block_member Hin.
Qed.

Lemma singleRequestJob_logs ctx globalConfig args s :
  (isInEncryptedContext ctx = true →
   Forall (λ e, is_Printf e = false) (events_of (singleRequestJob ctx globalConfig args s))) ∧
  (∀ msg fields,
     EvDebug msg fields ∈ events_of (singleRequestJob ctx globalConfig args s) →
     msg = "cookie from the request expired" ∧ ∃ key, fields = [zap_ByteString "cookie" key]).
Proof.
  destruct (singleRequestJob_run ctx globalConfig args s)
    as [ e1 s1 HC1 | jobConfig1 clientConfig1 requestTpl1 s1 raw w3 e1 HC1 HE HD
       | jobConfig1 clientConfig1 requestTpl1 s1 raw w3 cfg id3 w4 err sent w5
             w6 sink4 evd cks s5 evc HC1 Hs1 HE HD dataSize req H3 HDo sink3 Hd resp HV ].
  { split; [done|]. intros msg fields Hin. block_member Hin. }
  { split; [by repeat constructor|]. intros msg fields Hin. block_member Hin. }
  pose proof (visitM_cookie_events _ _ _ _ _ _ HV) as [Hc _].
  assert (evd = [] ∨ ∃ id2 n, evd = [EvUUID id2; EvRecord ProcessedTraffic id2 n]) as Hevd.
  { destruct err; [left; by destruct Hd as (_ & _ & ->)|].
    right. destruct Hd as (id2 & _ & _ & ->). by eexists _, _. }
  unfold Printf_unless_encrypted. split.
  - intros ->. repeat (apply Forall_app; split); try by repeat constructor.
    + destruct Hevd as [->|(id2 & n & ->)]; by repeat constructor.
    + eapply Forall_impl; [exact Hc|]. by intros [].
  - intros msg fields [Hin|Hin]%elem_of_app; [block_member Hin|].
    apply elem_of_app in Hin as [Hin|Hin].
    { destruct (isInEncryptedContext ctx); block_member Hin. }
    apply elem_of_app in Hin as [Hin|Hin]; [block_member Hin|].
    apply elem_of_app in Hin as [Hin|Hin].
    { destruct Hevd as [->|(id2 & n & ->)]; block_member Hin. }
    rewrite Forall_forall in Hc. apply Hc in Hin.
    cbn in Hin. destruct fields as [|[| |key v] [|]]; try done.
    case_bool_decide as Hm; [|done]. destruct Hm as [-> ->]. split; [done | by exists v].
Qed.

Lemma loop_run_failure_records env req bc s r s' evs :
  loop_run env req bc s r s' evs →
  debug_records evs = failed_send_record (env_args env) <$> transport_errors evs ∧
  ∀ i req0 err resp,
    evs !! i = Some (EvDo req0 (Some err) resp) →
    evs !! (i + 2)
    = Some (EvDebug "error sending request" [zap_Error err; zap_Any "args" (env_args env)]).
Proof.
  induction 1 as
    [ req bc s | req bc s w1 HN | req bc s w1 raw0 w2 err0 HN HE HD
      | req bc s w1 raw0 w2 cfg out w3 r s' evs HN HE HD dataSize req' tm pm HDo HL [IHr IHp]
      | req bc s w1 raw0 w2 cfg err0 out w3 r s' evs HN HE HD dataSize req' tm bc' HDo HL [IHr IHp] ].
  - split; [done|]. intros i req0 err resp Hi. done.
  - split; [done|]. intros i req0 err resp Hi. block_lookup Hi i.
  - split; [done|]. intros i req0 err resp Hi. block_lookup Hi i.
  - split.
    + unfold debug_records, transport_errors in *. rewrite !omap_app, IHr. done.
    + intros i req0 err resp Hi.
      apply lookup_app_Some in Hi as [Hi | [Hle Hi]]; [block_lookup Hi i|].
      cbn [length] in Hle, Hi.
      rewrite lookup_app_r by (cbn [length]; lia). cbn [length].
      replace (i + 2 - 7) with (i - 7 + 2) by lia. by eapply IHp.
  - split.
    + unfold debug_records, transport_errors in *. rewrite !omap_app, IHr. done.
    + intros i req0 err resp Hi.
      apply lookup_app_Some in Hi as [Hi | [Hle Hi]]; [by block_lookup Hi i|].
      cbn [length] in Hle, Hi.
      rewrite lookup_app_r by (cbn [length]; lia). cbn [length].
      replace (i + 2 - 8) with (i - 8 + 2) by lia. by eapply IHp.
Qed.

Lemma fastHTTPJob_failure_records fuel ctx globalConfig args s :
  let evs := events_of (fastHTTPJob fuel ctx globalConfig args s) in
  debug_records evs = failed_send_record args <$> transport_errors evs ∧
  ∀ i req err resp,
    evs !! i = Some (EvDo req (Some err) resp) →
    evs !! (i + 2) = Some (EvDebug "error sending request" [zap_Error err; zap_Any "args" args]).
Proof.
  intros evs. subst evs.
  destruct (fastHTTPJob_run fuel ctx globalConfig args s)
    as [ e0 s0 HC | jobConfig clientConfig requestTpl s0 id1 w1 id2 w2 r s' evs HC Hs H1 H2 HL ].
  { split; [done|]. intros i req err resp Hi. done. }
  pose proof (loop_run_failure_records _ _ _ _ _ _ _ HL) as [Hr Hp]. cbn [env_args] in Hr, Hp.
  unfold Printf_unless_encrypted. destruct (isInEncryptedContext ctx); cbn [app].
  - split; [exact Hr|]. intros i req err resp Hi.
    destruct i as [|[|i]]; [done..|]. exact (Hp _ _ _ _ Hi).
  - split; [exact Hr|]. intros i req err resp Hi.
    destruct i as [|[|[|i]]]; [done..|]. exact (Hp _ _ _ _ Hi).
Qed.

Lemma visitM_cookie_records kvs cks s cks' s' evs :
  visitM cookieLoaderFunc kvs cks s = (cks', s', evs) →
  length (clock_readings evs) = length (List.filter dated kvs) ∧
  debug_records evs = expired_cookie_record <$> expired_names kvs (clock_readings evs).
Proof.
  revert cks s cks' s' evs.
  induction kvs as [|[key value] kvs IH]; intros cks s cks' s' evs.
  { cbv [visitM ret]. by intros ?; simplify_eq. }
  cbn [visitM]. unfold bind at 1.
  destruct (cookieLoaderFunc cks key value s) as [[cks1 s1] e1] eqn:H1.
  destruct (visitM cookieLoaderFunc kvs cks1 s1) as [[cks2 s2] e2] eqn:H2.
  intros ?; simplify_eq. destruct (IH _ _ _ _ _ H2) as [IH1 IH2].
  unfold expired_names, clock_readings, debug_records in *.
  rewrite !omap_app, IH2. cbn [List.filter].
  destruct (Cookie_ParseBytes value) as [err|c] eqn:HP.
  { assert (dated (key, value) = false) as -> by (unfold dated; cbn; by rewrite HP).
    rewrite (cookieLoaderFunc_unparsed _ _ _ _ _ HP) in H1. by simplify_eq. }
  destruct (decide (Cookie_Expire c = fasthttp_CookieExpireUnlimited)) as [Hu|Hu].
  - assert (dated (key, value) = false) as ->.
    { unfold dated; cbn. rewrite HP. by apply bool_decide_eq_false_2; intros []. }
    rewrite (cookieLoaderFunc_unlimited _ _ _ _ _ HP Hu) in H1. by simplify_eq.
  - assert (dated (key, value) = true) as ->.
    { unfold dated; cbn. rewrite HP. by apply bool_decide_eq_true_2. }
    assert (∀ t, expired_at t (key, value) = (Cookie_Expire c <? t)%Z) as He.
    { intros t. unfold expired_at; cbn. rewrite HP. by rewrite bool_decide_eq_true_2. }
    rewrite (cookieLoaderFunc_dated _ _ _ _ _ HP Hu) in H1.
    destruct (time_Now (world s)) as [now w].
    destruct (Cookie_Expire c <? now)%Z eqn:Hb; simplify_eq;
      cbn [app omap list_omap zip zip_with List.filter length fst snd];
      rewrite He, Hb; cbn [fmap list_fmap fst snd]; (split; [by rewrite IH1 | done]).
Qed.

(** C5, as the code has it.  In the encrypted context neither
    [fastHTTPJob] nor [singleRequestJob] writes a [log.Printf] line, so
    that the two lines that print the request path are withheld.  In
    every mode the other records are Debug records of the zap logger.
    Those of the loop are, in order, one for each send that failed:
    "error sending request" with the error that the client returned for
    that send and with the arguments of the job, written right after the
    counter of the send; such a record identifies the target and is not
    limited to method and host.  Those of the single-shot variant are,
    in order, one for each response cookie that had expired when the
    clock was read for it: "cookie from the request expired" with the
    name of that cookie; a send that fails is not logged there, and a run
    that returns no snapshot logs nothing. *)
Theorem encrypted_context_withholds_Printf fuel ctx globalConfig args s :
  let loop_events := events_of (fastHTTPJob fuel ctx globalConfig args s) in
  let single := singleRequestJob ctx globalConfig args s in
  (isInEncryptedContext ctx = true →
   Forall (λ e, is_Printf e = false) loop_events ∧
   Forall (λ e, is_Printf e = false) (events_of single)) ∧
  debug_records loop_events = failed_send_record args <$> transport_errors loop_events ∧
  (∀ i req err resp,
     loop_events !! i = Some (EvDo req (Some err) resp) →
     loop_events !! (i + 2)
     = Some (EvDebug "error sending request" [zap_Error err; zap_Any "args" args])) ∧
  Forall (λ e, is_Debug e = true → target_identifying e = true ∧ bounded_detail e = false)
         loop_events ∧
  match result_of single with
  | (Some res, _) =>
      ∃ req sent,
        List.filter is_Do (events_of single) = [EvDo req (error_ res) sent] ∧
        let kvs := Response_VisitAllCookie (default fasthttp_AcquireResponse sent) in
        length (clock_readings (events_of single)) = length (List.filter dated kvs) ∧
        debug_records (events_of single)
        = expired_cookie_record <$> expired_names kvs (clock_readings (events_of single))
  | (None, _) => debug_records (events_of single) = []
  end.
Proof.
  intros loop_events single. subst loop_events single.
  pose proof (fastHTTPJob_logs fuel ctx globalConfig args s) as [L1 L2].
  pose proof (singleRequestJob_logs ctx globalConfig args s) as [S1 _].
  pose proof (fastHTTPJob_failure_records fuel ctx globalConfig args s) as [R1 R2].
  split; [auto|]. split; [exact R1|]. split; [exact R2|]. split.
  { apply Forall_forall. intros [] Hin; try done. intros _.
    destruct (L2 _ _ Hin) as [_ [err ->]]. done. }
  destruct (result_of (singleRequestJob ctx globalConfig args s)) as [[res|] err] eqn:Hres.
  - assert (err = None) as ->.
    { revert Hres. destruct (singleRequestJob_run ctx globalConfig args s); by intros ?; simplify_eq. }
    destruct (singleRequestJob_cookie_visit _ _ _ _ _ Hres)
      as (req & sent & s4 & s5 & pre & evc & Hev & Hnow & Hdbg & HDo & HV).
    exists req, sent. split; [done|].
    destruct (visitM_cookie_records _ _ _ _ _ _ HV) as [V1 V2].
    assert (clock_readings pre = []) as Hcp.
    { clear -Hnow. induction Hnow as [|e pre He _ IH]; [done|]. by destruct e. }
    assert (debug_records pre = []) as Hdp.
    { clear -Hdbg. induction Hdbg as [|e pre He _ IH]; [done|]. by destruct e. }
    rewrite Hev. unfold clock_readings, debug_records in *.
    rewrite !omap_app, Hcp, Hdp. done.
  - revert Hres.
    destruct (singleRequestJob_run ctx globalConfig args s); by intros ?; simplify_eq.
Qed.

(** ** Further properties of the code *)

(** *** The header map *)

Lemma visit_header_snoc kvs hs key value :
  visit headerLoaderFunc (kvs ++ [(key, value)]) hs
  = <[key := value]> (visit headerLoaderFunc kvs hs).
Proof. unfold visit. by rewrite foldl_snoc. Qed.

Lemma visit_header_list_to_map kvs hs :
  visit headerLoaderFunc kvs hs = list_to_map (reverse kvs) ∪ hs.
Proof.
  induction kvs as [|[key value] kvs IH] using rev_ind.
  - change (hs = ∅ ∪ hs). by rewrite (left_id_L ∅ (∪)).
  - rewrite visit_header_snoc, IH, reverse_snoc. cbn [list_to_map foldr].
    by rewrite insert_union_l.
Qed.

(** X1.  Visiting the headers of a response with [headerLoaderFunc] builds
    the map in which each name has the value that the response gave last
    for it: the map of the pairs read in reverse, laid over the map the
    visit started with.  Every name of the response is in the map, and
    when no name occurs twice the map is that of the pairs as they
    stand. *)
Theorem header_map_is_last_wins (kvs : list (string * string)) (hs : gmap string string) :
  visit headerLoaderFunc kvs hs = list_to_map (reverse kvs) ∪ hs ∧
  dom (visit headerLoaderFunc kvs ∅) = list_to_set kvs.*1 ∧
  (NoDup kvs.*1 → visit headerLoaderFunc kvs ∅ = list_to_map kvs).
Proof.
  split; [apply visit_header_list_to_map|].
  rewrite (visit_header_list_to_map kvs ∅), (right_id_L ∅ (∪)). split.
  - rewrite dom_list_to_map_L, fmap_reverse. apply set_eq. intros k.
    by rewrite !elem_of_list_to_set, elem_of_reverse.
  - intros Hnd. symmetry. apply list_to_map_proper; [done|].
    by rewrite reverse_Permutation.
Qed.

(** *** The cookie map *)

Lemma visitM_cookie_reads kvs cks s cks' s' evs :
  visitM cookieLoaderFunc kvs cks s = (cks', s', evs) →
  count is_Now evs = length (List.filter dated kvs) ∧
  count is_Debug evs ≤ count is_Now evs.
Proof.
  revert cks s cks' s' evs.
  induction kvs as [|[key value] kvs IH]; intros cks s cks' s' evs.
  { cbv [visitM ret]. by intros ?; simplify_eq. }
  cbn [visitM]. unfold bind at 1.
  destruct (cookieLoaderFunc cks key value s) as [[cks1 s1] e1] eqn:H1.
  destruct (visitM cookieLoaderFunc kvs cks1 s1) as [[cks2 s2] e2] eqn:H2.
  intros ?; simplify_eq. destruct (IH _ _ _ _ _ H2) as [IH1 IH2].
  rewrite !count_app, IH1. cbn [List.filter].
  destruct (Cookie_ParseBytes value) as [err|c] eqn:HP.
  { assert (dated (key, value) = false) as -> by (unfold dated; cbn; by rewrite HP).
    rewrite (cookieLoaderFunc_unparsed _ _ _ _ _ HP) in H1. simplify_eq. cbn. lia. }
  destruct (decide (Cookie_Expire c = fasthttp_CookieExpireUnlimited)) as [Hu|Hu].
  - assert (dated (key, value) = false) as ->.
    { unfold dated; cbn. rewrite HP. by apply bool_decide_eq_false_2; intros []. }
    rewrite (cookieLoaderFunc_unlimited _ _ _ _ _ HP Hu) in H1. simplify_eq. cbn. lia.
  - assert (dated (key, value) = true) as ->.
    { unfold dated; cbn. rewrite HP. by apply bool_decide_eq_true_2. }
    rewrite (cookieLoaderFunc_dated _ _ _ _ _ HP Hu) in H1.
    destruct (time_Now (world s)) as [now w].
    destruct (Cookie_Expire c <? now)%Z; simplify_eq; cbn; lia.
Qed.

Lemma visitM_cookie_frozen t kvs cks s cks' s' evs :
  (∀ w, (time_Now w).1 = t) →
  visitM cookieLoaderFunc kvs cks s = (cks', s', evs) →
  cks' = visit headerLoaderFunc (omap (kept_at t) kvs) cks ∧
  count is_Debug evs = length (List.filter (expired_at t) kvs).
Proof.
  intros Hclock. revert cks s cks' s' evs.
  induction kvs as [|[key value] kvs IH]; intros cks s cks' s' evs.
  { cbv [visitM ret]. by intros ?; simplify_eq. }
  cbn [visitM]. unfold bind at 1.
  destruct (cookieLoaderFunc cks key value s) as [[cks1 s1] e1] eqn:H1.
  destruct (visitM cookieLoaderFunc kvs cks1 s1) as [[cks2 s2] e2] eqn:H2.
  intros ?; simplify_eq. destruct (IH _ _ _ _ _ H2) as [-> IH2].
  rewrite count_app, IH2. cbn [List.filter omap list_omap].
  destruct (Cookie_ParseBytes value) as [err|c] eqn:HP.
  { assert (expired_at t (key, value) = false) as He
      by (unfold expired_at; cbn; by rewrite HP).
    assert (kept_at t (key, value) = None) as -> by (unfold kept_at; cbn; by rewrite HP).
    rewrite He. rewrite (cookieLoaderFunc_unparsed _ _ _ _ _ HP) in H1. by simplify_eq. }
  destruct (decide (Cookie_Expire c = fasthttp_CookieExpireUnlimited)) as [Hu|Hu].
  - assert (expired_at t (key, value) = false) as He.
    { unfold expired_at; cbn. rewrite HP. by rewrite bool_decide_eq_false_2 by (by intros []). }
    assert (kept_at t (key, value) = Some (key, Cookie_Value c)) as ->.
    { unfold kept_at. rewrite He. cbn. by rewrite HP. }
    rewrite He. rewrite (cookieLoaderFunc_unlimited _ _ _ _ _ HP Hu) in H1. by simplify_eq.
  - assert (expired_at t (key, value) = (Cookie_Expire c <? t)%Z) as He.
    { unfold expired_at; cbn. rewrite HP. by rewrite bool_decide_eq_true_2. }
    assert (kept_at t (key, value)
            = if (Cookie_Expire c <? t)%Z then None else Some (key, Cookie_Value c)) as ->.
    { unfold kept_at. rewrite He. cbn. by rewrite HP. }
    rewrite He. rewrite (cookieLoaderFunc_dated _ _ _ _ _ HP Hu) in H1.
    pose proof (Hclock (world s)) as Hnow.
    destruct (time_Now (world s)) as [now w]. cbn in Hnow. subst now.
    destruct (Cookie_Expire c <? t)%Z; by simplify_eq.
Qed.

(** X2.  Let the clock show [t] whenever it is read.  Then the cookie map
    of the snapshot that [singleRequestJob] returns holds exactly the
    response cookies that parse and have not expired at [t] (no expiry, or
    an expiry not before [t]: a cookie that expires at [t] itself is
    kept), each under its name with its parsed value, the last one
    winning where a name repeats; and the run logs one Debug record for
    each response cookie that had expired and no other. *)
Theorem snapshot_cookies_at_a_fixed_time
    ctx globalConfig args s jobConfig clientConfig requestTpl cfg t :
  let configured := getHTTPJobConfigs (context_WithCancel ctx) args globalConfig s in
  let run := singleRequestJob ctx globalConfig args s in
  result_of configured = inr (jobConfig, clientConfig, requestTpl) →
  utils_Decode_RequestConfig
    (MapStruct_Execute requestTpl (context_WithCancel ctx) (world (state_of configured))).1
    = inr cfg →
  (∀ w, (time_Now w).1 = t) →
  ∃ res req sent,
    result_of run = (Some res, None) ∧
    List.filter is_Do (events_of run) = [EvDo req (error_ res) sent] ∧
    let kvs := Response_VisitAllCookie (default fasthttp_AcquireResponse sent) in
    cookies (response res) = list_to_map (reverse (omap (kept_at t) kvs)) ∧
    count is_Debug (events_of run) = length (List.filter (expired_at t) kvs).
Proof.
  intros configured run Hcfg Hdec Hclock.
  destruct (singleRequestJob_returns _ _ _ _ _ _ _ _ Hcfg Hdec) as [res Hres].
  destruct (singleRequestJob_cookie_visit _ _ _ _ _ Hres)
    as (req & sent & s4 & s5 & pre & evc & Hev & Hnow & Hdbg & HDo & HV).
  exists res, req, sent. repeat split; try done.
  - destruct (visitM_cookie_frozen _ _ _ _ _ _ _ Hclock HV) as [-> _].
    by rewrite visit_header_list_to_map, (right_id_L ∅ (∪)).
  - destruct (visitM_cookie_frozen _ _ _ _ _ _ _ Hclock HV) as [_ <-].
    subst run. by rewrite Hev, count_app, (count_none _ _ Hdbg).
Qed.

(** X3.  While [singleRequestJob] builds its snapshot, the clock is read
    once for every response cookie that parses and carries an expiry, and
    never for a cookie that does not parse or whose expiry is
    [CookieExpireUnlimited]; a Debug record is written for at most as many
    cookies as the clock was read for.  When the job returns no snapshot
    the clock is not read at all. *)
Theorem clock_is_read_for_dated_cookies_only ctx globalConfig args s :
  let run := singleRequestJob ctx globalConfig args s in
  match result_of run with
  | (Some res, _) =>
      ∃ req sent,
        List.filter is_Do (events_of run) = [EvDo req (error_ res) sent] ∧
        count is_Now (events_of run)
          = length (List.filter dated
                      (Response_VisitAllCookie (default fasthttp_AcquireResponse sent))) ∧
        count is_Debug (events_of run) ≤ count is_Now (events_of run)
  | (None, _) => count is_Now (events_of run) = 0 ∧ count is_Debug (events_of run) = 0
  end.
Proof.
  intros run. subst run.
  destruct (result_of (singleRequestJob ctx globalConfig args s)) as [[res|] err] eqn:Hres.
  - assert (err = None) as ->.
    { revert Hres. destruct (singleRequestJob_run ctx globalConfig args s); by intros ?; simplify_eq. }
    destruct (singleRequestJob_cookie_visit _ _ _ _ _ Hres)
      as (req & sent & s4 & s5 & pre & evc & Hev & Hnow & Hdbg & HDo & HV).
    exists req, sent. split; [done|].
    destruct (visitM_cookie_reads _ _ _ _ _ _ HV) as [R1 R2].
    rewrite Hev, !count_app, (count_none _ _ Hnow), (count_none _ _ Hdbg). cbn. by rewrite R1 in *.
  - revert Hres. destruct (singleRequestJob_run ctx globalConfig args s); by intros ?; simplify_eq.
Qed.

(** *** The metrics of a run *)

Lemma exchanges_from_none cur evs :
  Forall (λ e, is_Do e = false ∧ is_InitRequest e = false) evs → exchanges_from cur evs = [].
Proof.
  induction 1 as [|e evs [H1 H2] _ IH]; [done|]. by destruct e.
Qed.

Lemma exchanges_from_app_none cur pre evs :
  Forall (λ e, is_Do e = false ∧ is_InitRequest e = false) pre →
  exchanges_from cur (pre ++ evs) = exchanges_from cur evs.
Proof.
  induction 1 as [|e pre [H1 H2] _ IH]; [done|]. by destruct e.
Qed.

Lemma cookie_events_no_exchange evs :
  Forall (λ e, is_cookie_event e = true) evs →
  Forall (λ e, is_Do e = false ∧ is_InitRequest e = false) evs.
Proof. intros H. eapply Forall_impl; [exact H|]. by intros []. Qed.

Lemma http_count_inc_http host method st host' method' st' ms :
  http_count host method st (inc_http host' method' st' ms) =
  if bool_decide (host' = host ∧ method' = method ∧ st' = st)
  then S (http_count host method st ms) else http_count host method st ms.
Proof.
  unfold http_count, inc_http. cbn [http_counters]. case_bool_decide as Hk.
  - destruct Hk as (-> & -> & ->). by rewrite lookup_insert_eq.
  - rewrite lookup_insert_ne; [done|]. intros ?; simplify_eq. by apply Hk.
Qed.

Lemma stream_total_add_stream m id m' id' n ms :
  stream_total m id (add_stream m' id' n ms) =
  if bool_decide (m' = m ∧ id' = id) then (stream_total m id ms + n)%Z
  else stream_total m id ms.
Proof.
  unfold stream_total at 1, add_stream. cbn [streams]. case_bool_decide as Hk.
  - destruct Hk as (-> & ->). by rewrite lookup_insert_eq.
  - rewrite lookup_insert_ne; [done|]. intros ?; simplify_eq. by apply Hk.
Qed.

(** X6.  A run of [singleRequestJob] that returns a snapshot made exactly
    one exchange: the attempted-traffic total has grown by [uint64] of its
    payload size, the delivered-traffic total by the same amount when the
    embedded error is nil and by nothing when it is not, and one stream
    identifier was drawn for each record made.  A run that returns no
    snapshot made no exchange and left the metrics as they were. *)
Theorem single_shot_accounts_for_one_exchange ctx globalConfig args s :
  let run := singleRequestJob ctx globalConfig args s in
  match result_of run with
  | (Some res, _) =>
      ∃ sz,
        exchanges (events_of run) = [(sz, bool_decide (error_ res = None))] ∧
        kind_total Traffic (sink (state_of run))
          = (kind_total Traffic (sink s) + uint64 sz)%Z ∧
        kind_total ProcessedTraffic (sink (state_of run))
          = (kind_total ProcessedTraffic (sink s)
             + match error_ res with None => uint64 sz | Some _ => 0 end)%Z ∧
        count is_UUID (events_of run) = match error_ res with None => 2 | Some _ => 1 end
  | (None, _) =>
      exchanges (events_of run) = [] ∧ sink (state_of run) = sink s
  end.
Proof.
  intros run. subst run.
  destruct (singleRequestJob_run ctx globalConfig args s)
    as [ e1 s1 HC1 | jobConfig1 clientConfig1 requestTpl1 s1 raw w3 e1 HC1 HE HD
       | jobConfig clientConfig requestTpl s0 raw w1 cfg id1 w2 err sent w3
             w4 sink4 evd cks s5 evc HC Hs HE HD dataSize req H1 HDo sink3 Hd resp HV ].
  - apply getHTTPJobConfigs_eq in HC1 as [_ ?]. by cbn.
  - apply getHTTPJobConfigs_eq in HC1 as [_ ?]. by cbn.
  - cbn [result_of state_of events_of fst snd response error_].
    pose proof (visitM_cookie_events _ _ _ _ _ _ HV) as [Hc Hsink]. cbn [sink] in Hsink.
    exists dataSize. rewrite Hsink.
    assert (exchanges_from dataSize evc = []) as Hx
      by (by apply exchanges_from_none, cookie_events_no_exchange).
    assert (count is_UUID evc = 0) as Hu.
    { apply count_none. eapply Forall_impl; [exact Hc|]. by intros []. }
    unfold exchanges, Printf_unless_encrypted. rewrite !count_app, Hu.
    destruct err as [err|].
    + destruct Hd as (-> & -> & ->). subst sink3.
      rewrite !kind_total_inc_http, !kind_total_add_stream.
      destruct (isInEncryptedContext ctx); cbn; rewrite Hx;
        repeat case_bool_decide; try done; repeat split; lia.
    + destruct Hd as (id2 & H2 & -> & ->). subst sink3.
      rewrite !kind_total_add_stream, !kind_total_inc_http, !kind_total_add_stream.
      destruct (isInEncryptedContext ctx); cbn; rewrite Hx;
        repeat case_bool_decide; try done; repeat split; lia.
Qed.

Lemma loop_run_http_counts env req bc s r s' evs :
  loop_run env req bc s r s' evs →
  ∀ host method st,
    http_count host method st (sink s')
    = http_count host method st (sink s) + count (is_send_with host method st) evs.
Proof.
  induction 1 as
    [ req bc s | req bc s w1 HN | req bc s w1 raw0 w2 err0 HN HE HD
      | req bc s w1 raw0 w2 cfg out w3 r s' evs HN HE HD dataSize req' tm pm HDo HL IH
      | req bc s w1 raw0 w2 cfg err0 out w3 r s' evs HN HE HD dataSize req' tm bc' HDo HL IH ];
    intros host method st; cbn [sink]; try (cbn; lia).
  - rewrite IH, count_app. cbn [sink].
    change (http_count host method st (add_stream ?m ?i ?n ?ms))
      with (http_count host method st ms).
    rewrite http_count_inc_http.
    change (http_count host method st (add_stream ?m ?i ?n ?ms))
      with (http_count host method st ms).
    unfold count. cbn. case_bool_decide; cbn; lia.
  - rewrite IH, count_app. cbn [sink].
    rewrite http_count_inc_http.
    change (http_count host method st (add_stream ?m ?i ?n ?ms))
      with (http_count host method st ms).
    unfold count. cbn. case_bool_decide; cbn; lia.
Qed.

(** X7.  After any run of [fastHTTPJob] or of [singleRequestJob], each
    per-exchange counter (host, method, status) has grown by the number
    of calls of the client made in the run for a request of that host and
    method with that outcome (fail for an error, success for nil); a
    counter with no such call is as it was. *)
Theorem http_counters_count_the_sends fuel ctx globalConfig args s host method st :
  let loop := fastHTTPJob fuel ctx globalConfig args s in
  let single := singleRequestJob ctx globalConfig args s in
  http_count host method st (sink (state_of loop))
    = http_count host method st (sink s)
      + count (is_send_with host method st) (events_of loop) ∧
  http_count host method st (sink (state_of single))
    = http_count host method st (sink s)
      + count (is_send_with host method st) (events_of single).
Proof.
  intros loop single. subst loop single. split.
  - destruct (fastHTTPJob_run fuel ctx globalConfig args s)
      as [ e0 s0 HC | jobConfig clientConfig requestTpl s0 id1 w1 id2 w2 r s' evs HC Hs H1 H2 HL ].
    { apply getHTTPJobConfigs_eq in HC as [_ ->]. cbn. lia. }
    rewrite (loop_run_http_counts _ _ _ _ _ _ _ HL). cbn [sink].
    unfold Printf_unless_encrypted. rewrite !count_app.
    by destruct (isInEncryptedContext ctx).
  - destruct (singleRequestJob_run ctx globalConfig args s)
      as [ e1 s1 HC1 | jobConfig1 clientConfig1 requestTpl1 s1 raw w3 e1 HC1 HE HD
         | jobConfig clientConfig requestTpl s0 raw w1 cfg id1 w2 err sent w3
               w4 sink4 evd cks s5 evc HC Hs HE HD dataSize req H1 HDo sink3 Hd resp HV ].
    + apply getHTTPJobConfigs_eq in HC1 as [_ ->]. cbn. lia.
    + apply getHTTPJobConfigs_eq in HC1 as [_ ->]. cbn. lia.
    + pose proof (visitM_cookie_events _ _ _ _ _ _ HV) as [Hc Hsink]. cbn [sink] in Hsink.
      rewrite Hsink.
      assert (count (is_send_with host method st) evc = 0) as Hu.
      { apply count_none. eapply Forall_impl; [exact Hc|]. by intros []. }
      unfold Printf_unless_encrypted. rewrite !count_app, Hu.
      assert (http_count host method st sink4 = http_count host method st sink3
              ∧ count (is_send_with host method st) evd = 0) as [-> ->].
      { destruct err; [by destruct Hd as (_ & -> & ->)|].
        by destruct Hd as (id2 & _ & -> & ->). }
      subst sink3. rewrite http_count_inc_http.
      change (http_count host method st (add_stream ?m ?i ?n ?ms))
        with (http_count host method st ms).
      destruct (isInEncryptedContext ctx); unfold count; cbn;
        case_bool_decide; cbn; lia.
Qed.

(** *** The iterations of the loop *)

Lemma loop_run_counts env req bc s r s' evs :
  loop_run env req bc s r s' evs →
  count is_InitRequest evs = count is_Do evs ∧
  count is_Execute evs = count is_granted evs ∧
  count is_granted evs
    = count is_Do evs + match r with Some (_, Some _) => 1 | _ => 0 end ∧
  ∀ i, evs !! i = Some (EvNext false) → length evs = S i.
Proof.
  induction 1 as
    [ req bc s | req bc s w1 HN | req bc s w1 raw0 w2 err0 HN HE HD
      | req bc s w1 raw0 w2 cfg out w3 r s' evs HN HE HD dataSize req' tm pm HDo HL
          (IH1 & IH2 & IH3 & IH4)
      | req bc s w1 raw0 w2 cfg err0 out w3 r s' evs HN HE HD dataSize req' tm bc' HDo HL
          (IH1 & IH2 & IH3 & IH4) ].
  - repeat split; try done.
  - repeat split; try done. intros i Hi. block_lookup Hi i.
  - repeat split; try done. intros i Hi. block_lookup Hi i.
  - rewrite !count_app, IH1, IH2, IH3. repeat split; try (cbn; lia).
    intros i [Hi | [Hle Hi]]%lookup_app_Some; [block_lookup Hi i|].
    rewrite length_app, (IH4 _ Hi). cbn in *. lia.
  - rewrite !count_app, IH1, IH2, IH3. repeat split; try (cbn; lia).
    intros i [Hi | [Hle Hi]]%lookup_app_Some; [block_lookup Hi i|].
    rewrite length_app, (IH4 _ Hi). cbn in *. lia.
Qed.

(** X8.  In every run of [fastHTTPJob] the request template is evaluated
    once for each time [Next] granted an iteration, and each materialized
    request is sent exactly once: the sends are as many as the grants,
    or one fewer when the run ended on a template that failed; so the
    loop never sends more often than [Next] allowed.  A denial by [Next]
    is the last event of its run: nothing is evaluated or sent after
    it. *)
Theorem sends_never_exceed_grants fuel ctx globalConfig args s :
  let run := fastHTTPJob fuel ctx globalConfig args s in
  let evs := events_of run in
  count is_InitRequest evs = count is_Do evs ∧
  count is_Execute evs = count is_granted evs ∧
  count is_Do evs ≤ count is_granted evs ≤ S (count is_Do evs) ∧
  (∀ data, result_of run = Some (data, None) → count is_Do evs = count is_granted evs) ∧
  (result_of run = None → count is_Do evs = count is_granted evs) ∧
  (∀ i, evs !! i = Some (EvNext false) → length evs = S i).
Proof.
  intros run evs. subst run evs.
  destruct (fastHTTPJob_run fuel ctx globalConfig args s)
    as [ e0 s0 HC | jobConfig clientConfig requestTpl s0 id1 w1 id2 w2 r s' evs HC Hs H1 H2 HL ].
  { repeat split; try done; cbn; lia. }
  destruct (loop_run_counts _ _ _ _ _ _ _ HL) as (L1 & L2 & L3 & L4).
  cbn [result_of events_of fst snd].
  assert (∀ p, (∀ f a, p (EvPrintf f a) = false) → (∀ i, p (EvUUID i) = false) →
               count p ([EvUUID id1; EvUUID id2]
                        ++ Printf_unless_encrypted ctx "Attacking %v"
                             (PValue (Request jobConfig !! "path")) ++ evs)
               = count p evs) as Hpre.
  { intros p Hp Hu. rewrite !count_app. unfold Printf_unless_encrypted, count. cbn.
    rewrite !Hu. destruct (isInEncryptedContext ctx); cbn; by rewrite ?Hp. }
  rewrite !Hpre by done. repeat split; try lia.
  - destruct r as [[? [?|]]|]; lia.
  - intros data ->. lia.
  - intros ->. lia.
  - intros i [Hi | [Hle Hi]]%lookup_app_Some; [block_lookup Hi i|].
    unfold Printf_unless_encrypted in *.
    destruct (isInEncryptedContext ctx); cbn [app] in *.
    + pose proof (L4 _ Hi). cbn in *. lia.
    + destruct (i - length [EvUUID id1; EvUUID id2]) as [|j] eqn:Hj; [done|].
      cbn in Hi. pose proof (L4 _ Hi). cbn in *. lia.
Qed.

Lemma request_after_app req pre evs :
  request_after req (pre ++ evs) = request_after (request_after req pre) evs.
Proof.
  revert req. induction pre as [|e pre IH]; intros req; [done|].
  destruct e; cbn; apply IH.
Qed.

Lemma loop_run_requests env req0 bc s r s' evs :
  loop_run env req0 bc s r s' evs →
  ∀ i,
    (∀ req err resp,
       evs !! i = Some (EvDo req err resp) → req = request_after req0 (take i evs)) ∧
    (∀ cfg sz,
       evs !! i = Some (EvInitRequest cfg sz) →
       sz = (http_InitRequest cfg (request_after req0 (take i evs))).1).
Proof.
  induction 1 as
    [ req bc s | req bc s w1 HN | req bc s w1 raw0 w2 err0 HN HE HD
      | req bc s w1 raw0 w2 cfg0 out w3 r s' evs HN HE HD dataSize req' tm pm HDo HL IH
      | req bc s w1 raw0 w2 cfg0 err0 out w3 r s' evs HN HE HD dataSize req' tm bc' HDo HL IH ];
    intros i.
  - split; intros; done.
  - split; intros ? ? ? Hi || intros ? ? Hi; block_lookup Hi i.
  - split; intros ? ? ? Hi || intros ? ? Hi; block_lookup Hi i.
  - split.
    + intros rq err resp [Hi | [Hle Hi]]%lookup_app_Some; [by block_lookup Hi i|].
      rewrite take_app_ge by done. rewrite request_after_app.
      exact (proj1 (IH _) _ _ _ Hi).
    + intros cfg sz [Hi | [Hle Hi]]%lookup_app_Some; [by block_lookup Hi i|].
      rewrite take_app_ge by done. rewrite request_after_app.
      exact (proj2 (IH _) _ _ Hi).
  - split.
    + intros rq err resp [Hi | [Hle Hi]]%lookup_app_Some; [by block_lookup Hi i|].
      rewrite take_app_ge by done. rewrite request_after_app.
      exact (proj1 (IH _) _ _ _ Hi).
    + intros cfg sz [Hi | [Hle Hi]]%lookup_app_Some; [by block_lookup Hi i|].
      rewrite take_app_ge by done. rewrite request_after_app.
      exact (proj2 (IH _) _ _ Hi).
Qed.

(** X9.  [fastHTTPJob] works on one request object: acquired once, it is
    rewritten by [InitRequest] in every iteration from the state the
    iteration before left it in, and never acquired or reset again.  So
    each request that the client is called with is the object as the
    calls of [InitRequest] so far have made it, the last of which belongs
    to the same iteration; and each payload size is what [InitRequest]
    returned on the object it found. *)
Theorem loop_reuses_one_request fuel ctx globalConfig args s i :
  let evs := events_of (fastHTTPJob fuel ctx globalConfig args s) in
  (∀ req err resp,
     evs !! i = Some (EvDo req err resp) →
     req = request_after fasthttp_AcquireRequest (take i evs)) ∧
  (∀ cfg sz,
     evs !! i = Some (EvInitRequest cfg sz) →
     sz = (http_InitRequest cfg (request_after fasthttp_AcquireRequest (take i evs))).1).
Proof.
  intros evs. subst evs.
  destruct (fastHTTPJob_run fuel ctx globalConfig args s)
    as [ e0 s0 HC | jobConfig clientConfig requestTpl s0 id1 w1 id2 w2 r s' evs HC Hs H1 H2 HL ];
    [done|].
  set (pre := [EvUUID id1; EvUUID id2]
              ++ Printf_unless_encrypted ctx "Attacking %v" (PValue (Request jobConfig !! "path"))).
  rewrite (assoc_L (++)). fold pre.
  assert (∀ req, request_after req pre = req) as Hpre.
  { intros req. subst pre. unfold Printf_unless_encrypted.
    by destruct (isInEncryptedContext ctx). }
  assert (∀ j e, pre !! j = Some e → is_Do e = false ∧ is_InitRequest e = false) as Hquiet.
  { intros j e Hj. subst pre. unfold Printf_unless_encrypted in Hj.
    destruct (isInEncryptedContext ctx); block_lookup Hj j. }
  split.
  - intros req err resp [Hi | [Hle Hi]]%lookup_app_Some.
    { by destruct (Hquiet _ _ Hi). }
    rewrite take_app_ge by done. rewrite request_after_app, Hpre.
    exact (proj1 (loop_run_requests _ _ _ _ _ _ _ HL _) _ _ _ Hi).
  - intros cfg sz [Hi | [Hle Hi]]%lookup_app_Some.
    { by destruct (Hquiet _ _ Hi). }
    rewrite take_app_ge by done. rewrite request_after_app, Hpre.
    exact (proj2 (loop_run_requests _ _ _ _ _ _ _ HL _) _ _ Hi).
Qed.

Lemma loop_run_streams env req bc s r s' evs :
  env_streams env →
  loop_run env req bc s r s' evs →
  let id1 := writer_id (env_trafficMonitor env) in
  let id2 := writer_id (env_processedTrafficMonitor env) in
  Forall (on_job_streams id1 id2) evs ∧
  ∀ cur m id,
    stream_total m id (sink s') =
    (stream_total m id (sink s)
     + (if bool_decide (m = Traffic ∧ id = id1)
        then sum_recorded (exchanges_from cur evs) else 0)
     + (if bool_decide (m = ProcessedTraffic ∧ id = id2)
        then sum_recorded (succeeded (exchanges_from cur evs)) else 0))%Z.
Proof.
  intros [Ht Hp] Hrun id1 id2. subst id1 id2. induction Hrun as
    [ req bc s | req bc s w1 HN | req bc s w1 raw0 w2 err0 HN HE HD
      | req bc s w1 raw0 w2 cfg out w3 r s' evs HN HE HD dataSize req' tm pm HDo HL [IHf IH]
      | req bc s w1 raw0 w2 cfg err0 out w3 r s' evs HN HE HD dataSize req' tm bc' HDo HL [IHf IH] ];
    unfold sum_recorded, succeeded in *.
  - split; [done|]. intros. cbn. repeat case_bool_decide; lia.
  - split; [by repeat constructor|]. intros. cbn. repeat case_bool_decide; lia.
  - split; [by repeat constructor|]. intros. cbn. repeat case_bool_decide; lia.
  - split.
    + apply Forall_app. split; [|done]. subst tm pm.
      repeat (apply Forall_cons; split; [cbn; rewrite ?Ht, ?Hp; tauto|]).
      apply Forall_nil_2.
    + intros cur m id. rewrite (IH dataSize). cbn [sink]. subst tm pm.
      rewrite !stream_total_add_stream.
      change (stream_total m id (inc_http ?h ?me ?st ?ms)) with (stream_total m id ms).
      rewrite !stream_total_add_stream. rewrite Ht, Hp. cbn.
      repeat case_bool_decide; destruct_and?; simplify_eq;
        first [lia | exfalso; tauto].
  - split.
    + apply Forall_app. split; [|done]. subst tm.
      repeat (apply Forall_cons; split; [cbn; rewrite ?Ht, ?Hp; tauto|]).
      apply Forall_nil_2.
    + intros cur m id. rewrite (IH dataSize). cbn [sink]. subst tm.
      change (stream_total m id (inc_http ?h ?me ?st ?ms)) with (stream_total m id ms).
      rewrite !stream_total_add_stream. rewrite Ht. cbn.
      repeat case_bool_decide; destruct_and?; simplify_eq;
        first [lia | exfalso; tauto].
Qed.

(** X10.  A run of [fastHTTPJob] whose configuration is accepted begins by
    drawing two identifiers and draws no other.  Every record of the run
    goes to the stream (Traffic, first identifier) or to the stream
    (ProcessedTraffic, second identifier); the total of the first grows by
    the recorded sizes of all exchanges, that of the second by those of
    the exchanges that returned nil, and the total of every other stream
    identity is as it was.  The two streams differ in kind, so they stay
    apart even when the two identifiers are equal.  A run whose
    configuration is refused has no event and changes no total. *)
Theorem loop_records_on_its_two_streams fuel ctx globalConfig args s :
  let run := fastHTTPJob fuel ctx globalConfig args s in
  let done := exchanges (events_of run) in
  match events_of run with
  | [] => sink (state_of run) = sink s
  | EvUUID id1 :: EvUUID id2 :: rest =>
      Forall (on_job_streams id1 id2) rest ∧
      ∀ m id,
        stream_total m id (sink (state_of run)) =
        (stream_total m id (sink s)
         + (if bool_decide (m = Traffic ∧ id = id1) then sum_recorded done else 0)
         + (if bool_decide (m = ProcessedTraffic ∧ id = id2)
            then sum_recorded (succeeded done) else 0))%Z
  | _ => False
  end.
Proof.
  intros run done. subst run done.
  destruct (fastHTTPJob_run fuel ctx globalConfig args s)
    as [ e0 s0 HC | jobConfig clientConfig requestTpl s0 id1 w1 id2 w2 r s' evs HC Hs H1 H2 HL ].
  { by apply getHTTPJobConfigs_eq in HC as [_ ->]. }
  cbn [events_of state_of fst snd app].
  pose proof (λ E, loop_run_streams _ _ _ _ _ _ _ E HL) as L.
  destruct L as [Lf Lt]; [done|]. cbn [env_trafficMonitor env_processedTrafficMonitor
    metrics_NewWriter writer_id sink] in Lf, Lt.
  split.
  - apply Forall_app. split; [|done]. unfold Printf_unless_encrypted.
    destruct (isInEncryptedContext ctx); by repeat constructor.
  - intros m id. rewrite (Lt 0%Z).
    assert (exchanges (EvUUID id1 :: EvUUID id2
                       :: Printf_unless_encrypted ctx "Attacking %v"
                            (PValue (Request jobConfig !! "path")) ++ evs)
            = exchanges_from 0 evs) as ->; [|done].
    unfold exchanges, Printf_unless_encrypted. by destruct (isInEncryptedContext ctx).
Qed.

(** *** What is logged outside the encrypted context *)

(** X11.  Outside the encrypted context, with the configuration accepted,
    [fastHTTPJob] prints exactly one line, "Attacking" with the entry
    "path" of the raw request map (nil when the map has no such key, which
    is no error), and prints it right after drawing its identifiers,
    before [Next] is called or the template is evaluated for the first
    time.  [singleRequestJob] prints exactly one line, "Sent single http
    request to" with the path of the decoded request, and prints it before
    the request is materialized and sent, whatever the send returns; when
    the template does not decode it prints nothing. *)
Theorem plain_context_prints_one_line
    fuel ctx globalConfig args s jobConfig clientConfig requestTpl :
  let configured := getHTTPJobConfigs (context_WithCancel ctx) args globalConfig s in
  let loop_events := events_of (fastHTTPJob fuel ctx globalConfig args s) in
  let single_events := events_of (singleRequestJob ctx globalConfig args s) in
  let raw := (MapStruct_Execute requestTpl (context_WithCancel ctx)
                (world (state_of configured))).1 in
  isInEncryptedContext ctx = false →
  result_of configured = inr (jobConfig, clientConfig, requestTpl) →
  (List.filter is_Printf loop_events
     = [EvPrintf "Attacking %v" (PValue (Request jobConfig !! "path"))] ∧
   loop_events !! 2 = Some (EvPrintf "Attacking %v" (PValue (Request jobConfig !! "path")))) ∧
  match utils_Decode_RequestConfig raw with
  | inl _ => List.filter is_Printf single_events = []
  | inr cfg =>
      List.filter is_Printf single_events
        = [EvPrintf "Sent single http request to %v" (PString (RequestConfig_Path cfg))] ∧
      single_events !! 1
        = Some (EvPrintf "Sent single http request to %v" (PString (RequestConfig_Path cfg))) ∧
      ∃ req err sent, single_events !! 5 = Some (EvDo req err sent)
  end.
Proof.
  intros configured loop_events single_events raw Hplain Hcfg.
  subst configured loop_events single_events raw. unfold context_WithCancel in *.
  pose proof (fastHTTPJob_logs fuel ctx globalConfig args s) as [_ Hld].
  split.
  - revert Hld.
    destruct (fastHTTPJob_run fuel ctx globalConfig args s)
      as [ e0 s0 HC | jobConfig' clientConfig' requestTpl' s0 id1 w1 id2 w2 r s' evs HC Hs H1 H2 HL ];
      rewrite HC in Hcfg; unfold result_of in Hcfg; cbn in Hcfg; simplify_eq.
    intros _. pose proof (loop_run_logs _ _ _ _ _ _ _ HL) as [Hp _].
    unfold Printf_unless_encrypted. rewrite Hplain. split; [|done].
    cbn. f_equal. clear -Hp. induction Hp as [|e evs He _ IH]; [done|]. cbn. by rewrite He.
  - destruct (singleRequestJob_run ctx globalConfig args s)
      as [ e1 s1 HC1 | jobConfig1 clientConfig1 requestTpl1 s1 raw w3 e1 HC1 HE HD
         | jobConfig1 clientConfig1 requestTpl1 s0 raw w1 cfg id1 w2 err sent w3
               w4 sink4 evd cks s5 evc HC1 Hs HE HD dataSize req H1 HDo sink3 Hd resp HV ];
      rewrite HC1 in Hcfg |- *; unfold result_of, state_of in Hcfg |- *; cbn in Hcfg |- *;
      simplify_eq.
    + rewrite HE. cbn [fst]. by rewrite HD.
    + rewrite HE. cbn [fst]. rewrite HD.
      unfold Printf_unless_encrypted. rewrite Hplain.
      pose proof (visitM_cookie_events _ _ _ _ _ _ HV) as [Hc _].
      assert (List.filter is_Printf evc = []) as Hevc.
      { clear -Hc. induction Hc as [|e evs He _ IH]; [done|]. cbn. rewrite IH. by destruct e. }
      assert (List.filter is_Printf evd = []) as Hevd.
      { destruct err; [by destruct Hd as (_ & _ & ->)|]. by destruct Hd as (? & _ & _ & ->). }
      split; [|split; [done | by eexists _, _, _]].
      cbn. by rewrite List.filter_app, Hevc, Hevd.
Qed.

(** X12.  [singleRequestJob] is one pass: it never calls [Next] and
    never sleeps, it evaluates the request template at most once and calls
    the client at most once, exactly once when it returns a snapshot and
    not at all when it returns an error.  It logs nothing about a send
    that failed: the failure is reported only inside the result. *)
Theorem single_shot_is_one_pass ctx globalConfig args s :
  let run := singleRequestJob ctx globalConfig args s in
  let evs := events_of run in
  count is_Next evs = 0 ∧
  count is_Sleep evs = 0 ∧
  count is_Execute evs ≤ 1 ∧
  count is_InitRequest evs = count is_Do evs ∧
  count is_Do evs = match (result_of run).1 with Some _ => 1 | None => 0 end ∧
  ((result_of run).1 = None ↔ (result_of run).2 ≠ None) ∧
  Forall (λ e, is_failure_log e = false) evs.
Proof.
  intros run evs. subst run evs.
  pose proof (singleRequestJob_logs ctx globalConfig args s) as [_ Hdbg].
  assert (Forall (λ e, is_failure_log e = false)
            (events_of (singleRequestJob ctx globalConfig args s))) as Hlog.
  { apply Forall_forall. intros [| msg fields | | | | | | | | |] Hin; try done.
    destruct (Hdbg _ _ Hin) as [-> _]. done. }
  revert Hlog. clear Hdbg.
  destruct (singleRequestJob_run ctx globalConfig args s)
    as [ e1 s1 HC1 | jobConfig1 clientConfig1 requestTpl1 s1 raw w3 e1 HC1 HE HD
       | jobConfig1 clientConfig1 requestTpl1 s0 raw w1 cfg id1 w2 err sent w3
             w4 sink4 evd cks s5 evc HC1 Hs HE HD dataSize req H1 HDo sink3 Hd resp HV ];
    intros Hlog.
  - repeat split; try done. cbn. lia.
  - repeat split; try done; cbn; lia.
  - pose proof (visitM_cookie_events _ _ _ _ _ _ HV) as [Hc _].
    assert (∀ p, (∀ e, is_cookie_event e = true → p e = false) → count p evc = 0) as Hevc.
    { intros p Hp. apply count_none. eapply Forall_impl; [exact Hc|]. exact Hp. }
    assert (∀ p, (∀ i, p (EvUUID i) = false) → (∀ m i n, p (EvRecord m i n) = false) →
                 count p evd = 0) as Hevd.
    { intros p Hu Hr. destruct err; [by destruct Hd as (_ & _ & ->)|].
      destruct Hd as (? & _ & _ & ->). unfold count. cbn. by rewrite Hu, Hr. }
    assert (∀ p, (∀ f a, p (EvPrintf f a) = false) →
                 count p (Printf_unless_encrypted ctx "Sent single http request to %v"
                            (PString (RequestConfig_Path cfg))) = 0) as Hpr.
    { intros p Hp. unfold Printf_unless_encrypted, count.
      destruct (isInEncryptedContext ctx); cbn; by rewrite ?Hp. }
    cbn [result_of events_of fst snd].
    rewrite !count_app, !Hevc, !Hevd, !Hpr by (done || by intros []).
    repeat split; try done; try (cbn; lia).
Qed.

Lemma loop_run_outcomes env req bc s r s' evs :
  env_streams env →
  loop_run env req bc s r s' evs →
  count is_Sleep evs = count is_failed_send evs ∧
  count is_failure_log evs = count is_failed_send evs ∧
  count (is_record_on ProcessedTraffic) evs = count is_delivered_send evs ∧
  count (is_record_on Traffic) evs = count is_Do evs.
Proof.
  intros [Ht Hp]. induction 1 as
    [ req bc s | req bc s w1 HN | req bc s w1 raw0 w2 err0 HN HE HD
      | req bc s w1 raw0 w2 cfg out w3 r s' evs HN HE HD dataSize req' tm pm HDo HL
          (IH1 & IH2 & IH3 & IH4)
      | req bc s w1 raw0 w2 cfg err0 out w3 r s' evs HN HE HD dataSize req' tm bc' HDo HL
          (IH1 & IH2 & IH3 & IH4) ];
    try done.
  - subst tm pm. rewrite !count_app, IH1, IH2, IH3, IH4. unfold count. cbn.
    rewrite Ht, Hp. by repeat split.
  - subst tm. rewrite !count_app, IH1, IH2, IH3, IH4. unfold count. cbn.
    rewrite Ht. by repeat split.
Qed.

(** X13.  In every run of [fastHTTPJob] each send that failed is logged
    once as "error sending request" and slept for once, each send that
    returned nil has one record on the delivered stream, and every send
    has one record on the attempted stream: the sleeps and the failure
    records are as many as the failed sends, the delivered records as
    many as the sends that returned nil, the attempted records as many as
    the sends. *)
Theorem loop_handles_each_send_once fuel ctx globalConfig args s :
  let evs := events_of (fastHTTPJob fuel ctx globalConfig args s) in
  count is_Sleep evs = count is_failed_send evs ∧
  count is_failure_log evs = count is_failed_send evs ∧
  count (is_record_on ProcessedTraffic) evs = count is_delivered_send evs ∧
  count (is_record_on Traffic) evs = count is_Do evs ∧
  count is_Do evs = count is_failed_send evs + count is_delivered_send evs.
Proof.
  intros evs. subst evs.
  assert (∀ l, count is_Do l = count is_failed_send l + count is_delivered_send l) as Hsum.
  { unfold count. induction l as [|[| | | | | | |? [] ?| | |] l IH]; cbn; lia. }
  destruct (fastHTTPJob_run fuel ctx globalConfig args s)
    as [ e0 s0 HC | jobConfig clientConfig requestTpl s0 id1 w1 id2 w2 r s' evs HC Hs H1 H2 HL ];
    [done|].
  pose proof (λ E, loop_run_outcomes _ _ _ _ _ _ _ E HL) as L.
  destruct L as (L1 & L2 & L3 & L4); [done|].
  assert (∀ p, (∀ f a, p (EvPrintf f a) = false) → (∀ i, p (EvUUID i) = false) →
               count p ([EvUUID id1; EvUUID id2]
                        ++ Printf_unless_encrypted ctx "Attacking %v"
                             (PValue (Request jobConfig !! "path")) ++ evs)
               = count p evs) as Hpre.
  { intros p Hp Hu. rewrite !count_app. unfold Printf_unless_encrypted, count. cbn.
    rewrite !Hu. destruct (isInEncryptedContext ctx); cbn; by rewrite ?Hp. }
  rewrite !Hpre by done. by repeat split.
Qed.

End JobFacts.

(** * The properties on the scripted runs *)

Example single_mixed_snapshot :
  (λ res, (error_ res, body (response res), status_code (response res),
           headers (response res) !! "Server", cookies (response res) !! "sid",
           cookies (response res) !! "old", cookies (response res) !! "junk",
           cookies (response res) !! "keep"))
    <$> (result_of single_mixed).1
  = Some (None, "pong", 200%Z, Some "c", Some "v1", None, None, Some "v3").
Proof. reflexivity. Qed.

Example loop_mixed_totals :
  kind_total Traffic (sink (state_of (loop_mixed ctx_plain 10))) = 9%Z ∧
  kind_total ProcessedTraffic (sink (state_of (loop_mixed ctx_plain 10))) = 5%Z ∧
  http_count "/bcd" "GET" StatusFail (sink (state_of (loop_mixed ctx_plain 10))) = 1.
Proof. by vm_compute. Qed.

Example loop_mixed_events :
  events_of (loop_mixed ctx_encrypted 2) !! 15 = Some failure_record.
Proof. reflexivity. Qed.

(** C5 as the spec words it fails: in the encrypted context the second
    send of the scripted run fails and the loop logs the record
    "error sending request" with the transport error and the arguments of
    the job, which identify the target and are more than method and
    host. *)
Lemma encrypted_failure_log_carries_job_arguments :
  ¬ @logs_withhold_target (scripted script_mixed) ∧
  ¬ @failure_logs_are_bounded (scripted script_mixed).
Proof.
  assert (failure_record ∈ events_of (loop_mixed ctx_encrypted 2)) as Hin.
  { apply list_elem_of_lookup. exists 15. reflexivity. }
  split.
  - intros H.
    destruct (H 2 ctx_encrypted tt "target" (scripted_state script_mixed) eq_refl) as [Hl _].
    rewrite Forall_forall in Hl. specialize (Hl _ Hin). discriminate Hl.
  - intros H.
    specialize (H 2 ctx_encrypted tt "target" (scripted_state script_mixed)).
    rewrite Forall_forall in H. specialize (H _ Hin eq_refl). discriminate H.
Qed.

Lemma accounting_follows_protocol_witness :
  ∃ pre1 id1 mid1 req resp mid2,
    take 8 (events_of (loop_mixed ctx_encrypted 2))
      = pre1 ++ EvRecord Traffic id1 2 :: mid1 ++ EvDo req None resp :: mid2 ∧
    Forall (λ e, acct_quiet e = true) mid1 ∧ Forall (λ e, acct_quiet e = true) mid2.
Proof.
  apply (proj2 (proj1 (proj1
           (@accounting_follows_protocol (scripted script_mixed) 2 ctx_encrypted tt "target"
              (scripted_state script_mixed))))
           (take 8 (events_of (loop_mixed ctx_encrypted 2))) "b" 2%Z
           (drop 9 (events_of (loop_mixed ctx_encrypted 2)))).
  reflexivity.
Defined.

Lemma sleep_only_after_failed_send_witness :
  ∃ pre1 req err resp mid,
    take 16 (events_of (loop_mixed ctx_encrypted 2))
      = pre1 ++ EvDo req (Some err) resp :: mid ∧
    Forall (λ e, pace_quiet e = true) mid ∧
    200%Z = @BackoffController_GetTimeout (scripted script_mixed)
              (@controller_after (scripted script_mixed) 100%Z
                 (take 16 (events_of (loop_mixed ctx_encrypted 2)))).
Proof.
  pose proof (@sleep_only_after_failed_send (scripted script_mixed) 2 ctx_encrypted tt "target"
                (scripted_state script_mixed)) as H.
  hnf in H. destruct H as [H _].
  apply (H (take 16 (events_of (loop_mixed ctx_encrypted 2))) 200%Z
           (drop 17 (events_of (loop_mixed ctx_encrypted 2)))).
  reflexivity.
Defined.

Lemma encrypted_context_withholds_Printf_witness :
  (Forall (λ e, is_Printf e = false) (events_of (loop_mixed ctx_encrypted 10)) ∧
   Forall (λ e, is_Printf e = false)
     (events_of (@singleRequestJob (scripted script_mixed) ctx_encrypted tt "target"
                   (scripted_state script_mixed)))) ∧
  events_of (loop_mixed ctx_encrypted 10) !! 15 = Some failure_record.
Proof.
  pose proof (@encrypted_context_withholds_Printf (scripted script_mixed) 10 ctx_encrypted tt
                "target" (scripted_state script_mixed)) as (Hprintf & _ & Hfailed & _).
  split; [apply Hprintf; reflexivity|].
  apply (Hfailed 13 "/bcd" (errors_New "timeout") None). reflexivity.
Defined.

Lemma template_failure_ends_job_witness :
  result_of loop_broken_template
    = Some (None, Some (fmt_Errorf_w "error executing request template"
                          (errors_New "path is required"))) ∧
  Unwrap (fmt_Errorf_w "error executing request template" (errors_New "path is required"))
    = Some (errors_New "path is required") ∧
  length (events_of loop_broken_template) = 12.
Proof.
  apply (@template_failure_ends_job (scripted script_broken_template) 5 ctx_plain tt "target"
           (scripted_state script_broken_template) 11 "" (errors_New "path is required"));
    reflexivity.
Defined.

Lemma only_configuration_errors_are_returned_witness :
  last (events_of (loop_mixed ctx_plain 10)) = Some (@EvNext (scripted script_mixed) false) ∧
  result_of (loop_mixed ctx_plain 10) = Some (None, None).
Proof.
  split; [reflexivity|].
  apply (proj1 (proj1 (proj2 (proj2
           (@only_configuration_errors_are_returned (scripted script_mixed) 10 ctx_plain tt
              "target" (scripted_state script_mixed)))))).
  reflexivity.
Defined.

Lemma traffic_totals_witness :
  exchanges (events_of (loop_mixed ctx_plain 10)) = [(2%Z, true); (4%Z, false); (3%Z, true)] ∧
  (kind_total Traffic (sink (state_of (loop_mixed ctx_plain 10)))
   - kind_total Traffic (sink (scripted_state script_mixed)) = 9)%Z ∧
  (kind_total ProcessedTraffic (sink (state_of (loop_mixed ctx_plain 10)))
   - kind_total ProcessedTraffic (sink (scripted_state script_mixed)) = 5)%Z.
Proof.
  split; [reflexivity|].
  apply (proj2 (proj2 (proj2
           (@traffic_totals (scripted script_mixed) 10 ctx_plain tt "target"
              (scripted_state script_mixed))))).
  change (Forall (λ x : Z * bool, (0 ≤ x.1 < 2 ^ 64)%Z)
            [(2%Z, true); (4%Z, false); (3%Z, true)]).
  repeat constructor; cbn; lia.
Defined.

Lemma single_shot_embeds_transport_error_witness :
  ∃ res req sent,
    result_of single_mixed = (Some res, None) ∧
    List.filter is_Do (events_of single_mixed) = [EvDo req (error_ res) sent] ∧
    body (response res) = Response_Body (default fasthttp_AcquireResponse sent) ∧
    status_code (response res) = Response_StatusCode (default fasthttp_AcquireResponse sent) ∧
    headers (response res)
      = visit headerLoaderFunc (Response_VisitAll (default fasthttp_AcquireResponse sent)) ∅ ∧
    (∀ k, is_Some (cookies (response res) !! k) →
          k ∈ (Response_VisitAllCookie (default fasthttp_AcquireResponse sent)).*1).
Proof.
  apply (@single_shot_embeds_transport_error (scripted script_mixed) ctx_plain tt "target"
           (scripted_state script_mixed)
           {| Basic := tt; Request := {["path" := "target"]}; Client := ∅ |} tt tt "/a");
    reflexivity.
Defined.

Lemma snapshot_drops_expired_cookies_witness :
  ∃ res, result_of single_mixed = (Some res, None) ∧
         cookies (response res) !! "old" = None.
Proof.
  destruct (@snapshot_drops_expired_cookies (scripted script_mixed) ctx_plain tt "target"
              (scripted_state script_mixed)
              {| Basic := tt; Request := {["path" := "target"]}; Client := ∅ |} tt tt "/a"
              eq_refl eq_refl)
    as (res & req & sent & Hres & HDo & _ & _ & _ & _ & Hexp).
  exists res. split; [exact Hres|].
  injection HDo as _ _ <-.
  apply Hexp with (raw := "stale") (c := (5%Z, "v2")).
  - apply (bool_decide_unpack _). by vm_compute.
  - apply list_elem_of_lookup. by exists 1.
  - reflexivity.
  - done.
  - intros now Hnow.
    assert (forallb (λ e, match e with EvNow t => (5 <? t)%Z | _ => true end)
                    (events_of single_mixed) = true) as F.
    { vm_compute. reflexivity. }
    pose proof (proj1 (forallb_forall _ _) F _ (proj1 (list_elem_of_In _ _) Hnow)) as G.
    cbn beta iota in G. by apply Z.ltb_lt.
Defined.

Lemma unparseable_cookie_is_skipped_witness :
  @cookieLoaderFunc (scripted script_mixed) ∅ "junk" "garbled" (scripted_state script_mixed)
    = (∅, scripted_state script_mixed, []).
Proof.
  apply (proj1 (@unparseable_cookie_is_skipped (scripted script_mixed))
           ∅ "junk" "garbled" (scripted_state script_mixed) (errors_New "no cookies found")).
  reflexivity.
Defined.

(** ** The further properties on the scripted runs *)

Lemma header_map_is_last_wins_witness :
  visit headerLoaderFunc [("Server", "a"); ("Via", "b")] ∅
  = list_to_map [("Server", "a"); ("Via", "b")].
Proof.
  apply (proj2 (proj2 (header_map_is_last_wins [("Server", "a"); ("Via", "b")] ∅))).
  apply (bool_decide_unpack _). by vm_compute.
Defined.

Lemma snapshot_cookies_at_a_fixed_time_witness :
  ∃ res,
    result_of single_mixed = (Some res, None) ∧
    cookies (response res)
    = list_to_map (reverse (omap (@kept_at (scripted script_mixed) 1000%Z)
                              (sr_cookies scripted_response))) ∧
    count is_Debug (events_of single_mixed) = 1.
Proof.
  destruct (@snapshot_cookies_at_a_fixed_time (scripted script_mixed) ctx_plain tt "target"
              (scripted_state script_mixed)
              {| Basic := tt; Request := {["path" := "target"]}; Client := ∅ |} tt tt "/a"
              1000%Z eq_refl eq_refl (λ w, eq_refl))
    as (res & req & sent & Hres & HDo & Hck & Hdbg).
  exists res. split; [exact Hres|].
  injection HDo as _ _ <-. split; [exact Hck | exact Hdbg].
Defined.

Lemma sends_never_exceed_grants_witness :
  length (events_of (loop_mixed ctx_plain 10)) = 26.
Proof.
  apply (proj2 (proj2 (proj2 (proj2 (proj2
           (@sends_never_exceed_grants (scripted script_mixed) 10 ctx_plain tt "target"
              (scripted_state script_mixed))))))).
  reflexivity.
Defined.

Lemma loop_reuses_one_request_witness :
  "/bcd" = @request_after (scripted script_mixed) ""
             (take 13 (events_of (loop_mixed ctx_encrypted 2))).
Proof.
  apply (proj1 (@loop_reuses_one_request (scripted script_mixed) 2 ctx_encrypted tt "target"
                  (scripted_state script_mixed) 13)
           "/bcd" (Some (errors_New "timeout")) None).
  reflexivity.
Defined.

Lemma plain_context_prints_one_line_witness :
  List.filter is_Printf (events_of (loop_mixed ctx_plain 10))
  = [@EvPrintf (scripted script_mixed) "Attacking %v"
       (@PValue (scripted script_mixed)
          (({["path" := "target"]} : gmap string string) !! "path"))].
Proof.
  apply (proj1 (proj1 (@plain_context_prints_one_line (scripted script_mixed) 10 ctx_plain tt
                         "target" (scripted_state script_mixed)
                         {| Basic := tt; Request := {["path" := "target"]}; Client := ∅ |}
                         tt tt eq_refl eq_refl))).
Defined.
